(** * Multi-agent code development workflow: the artifact extractor,
      the workflow facade and the round-robin conversation engine.

    Shallow embedding of [multi_agent_workflow.py].  Python values that the
    workflow handles dynamically (dictionary entries of a message) are kept
    as a tagged union, exceptions are values of [PyExn], and every function
    that can raise returns a sum. *)

From Stdlib Require Import ZArith QArith Lia Ascii DecimalString.
From Stdlib Require String.
From stdpp Require Import base option list gmap strings.

Local Open Scope Z_scope.

(** ** Python strings

    Text is kept as the bytes of its UTF-8 encoding; every character the
    workflow looks for (fence, line feed, sentinel) is ASCII, so searching
    bytes and searching code points find the same places. *)

Module Str.

(** The line feed, written [\n] in the source. *)
Definition nl : string := String (ascii_of_nat 10) EmptyString.

(** [s[len(p):]] when [s.startswith(p)], and [None] otherwise. *)
Fixpoint strip_prefix (p s : string) : option string :=
  match p with
  | EmptyString => Some s
  | String a p' =>
      match s with
      | EmptyString => None
      | String b s' => if decide (a = b) then strip_prefix p' s' else None
      end
  end.

(** [needle in s]: case-sensitive substring test. *)
Fixpoint contains (needle s : string) : bool :=
  match strip_prefix needle s with
  | Some _ => true
  | None =>
      match s with
      | EmptyString => false
      | String _ s' => contains needle s'
      end
  end.

(** [sep.join(l)] on a list of strings. *)
Fixpoint join (sep : string) (l : list string) : string :=
  match l with
  | [] => ""
  | [x] => x
  | x :: (_ :: _) as l' => x +:+ sep +:+ join sep l'
  end.

(** The double quote character, as a one-character string. *)
Definition dq : string := String (ascii_of_nat 34) EmptyString.

(** Truth value of a string: non-empty. *)
Definition truthy (s : string) : bool :=
  match s with EmptyString => false | String _ _ => true end.

(** [s + c] for one character [c]. *)
Definition snoc (s : string) (c : ascii) : string :=
  s +:+ String c EmptyString.

End Str.

(** ** Python values, exceptions *)

(** The values a message dictionary may hold ([Dict[str, Any]]): the
    workflow only ever distinguishes text from everything else. *)
Inductive PyVal :=
| PNone
| PInt (z : Z)
| PStr (s : string)
| PList (l : list string).

(** Exceptions.  [BaseOnly] stands for the classes that derive from
    [BaseException] but not from [Exception] (cancellation, keyboard
    interrupt), which [except Exception] does not catch. *)
Inductive PyExn :=
| ValueError (msg : string)
| TypeError (msg : string)
| OtherException (cls msg : string)
| BaseOnly (cls msg : string).

(** A message of the conversation, as the extractor sees it: a dictionary. *)
Abbreviation Message := (gmap string PyVal).

(** ** The [re] patterns the workflow uses *)

Module Re.

(** The fragment of regular expressions that occurs in the source, with
    the backtracking order of Python's matcher. *)
Inductive item :=
| Lit (s : string)        (* literal characters *)
| OptLit (s : string)     (* (?:s)?  greedy, non-capturing *)
| LazyAnyGroup.           (* (.*?)   under re.DOTALL, capturing group 1 *)

Definition pattern := list item.

(** [(.*?)] followed by the continuation [k]: the shortest capture for
    which the rest of the pattern matches. *)
Fixpoint lazy_any (k : string -> string -> option (string * string))
    (s cap : string) : option (string * string) :=
  match k s cap with
  | Some r => Some r
  | None =>
      match s with
      | EmptyString => None
      | String c s' => lazy_any k s' (Str.snoc cap c)
      end
  end.

(** Match the pattern at the start of [s]; the result is group 1 and the
    text after the match. *)
Fixpoint match_here (p : pattern) (s cap : string) : option (string * string) :=
  match p with
  | [] => Some (cap, s)
  | Lit l :: p' =>
      match Str.strip_prefix l s with
      | Some r => match_here p' r cap
      | None => None
      end
  | OptLit l :: p' =>
      match Str.strip_prefix l s with
      | Some r =>
          match match_here p' r cap with
          | Some res => Some res
          | None => match_here p' s cap
          end
      | None => match_here p' s cap
      end
  | LazyAnyGroup :: p' => lazy_any (match_here p') s ""
  end.

(** [re.findall] for a pattern with one group: leftmost matches, not
    overlapping, each contributing its group 1.  After an empty match the
    scan moves on by one character. *)
Fixpoint findall_from (fuel : nat) (p : pattern) (s : string) : list string :=
  match fuel with
  | O => []
  | S fuel' =>
      let advance :=
        match s with
        | EmptyString => []
        | String _ s' => findall_from fuel' p s'
        end in
      match match_here p s "" with
      | Some (g, rest) =>
          g :: (if (String.length rest <? String.length s)%nat
                then findall_from fuel' p rest
                else advance)
      | None => advance
      end
  end.

Definition findall (p : pattern) (s : string) : list string :=
  findall_from (S (String.length s)) p s.

End Re.

(** [r'```(?:python)?\n(.*?)\n```'] *)
Definition code_block_pattern : Re.pattern :=
  [ Re.Lit "```"; Re.OptLit "python"; Re.Lit Str.nl;
    Re.LazyAnyGroup; Re.Lit (Str.nl +:+ "```") ].

(** ** Dictionary access and the built-ins the extractor calls *)

#[global] Instance PyVal_eq_dec : EqDecision PyVal.
Proof. solve_decision. Defined.

(** [d.get(k)]: the value, or [None]. *)
Definition dict_get (d : Message) (k : string) : PyVal :=
  default PNone (d !! k).

(** [d.get(k, dflt)] *)
Definition dict_get_default (d : Message) (k : string) (dflt : PyVal) : PyVal :=
  default dflt (d !! k).

(** [v == s] for a string [s]: only an equal string compares equal. *)
Definition py_eq_str (v : PyVal) (s : string) : bool :=
  match v with
  | PStr t => bool_decide (t = s)
  | _ => false
  end.

(** [re.findall(pattern, v, re.DOTALL)]: [TypeError] unless [v] is text. *)
Definition re_findall (p : Re.pattern) (v : PyVal) : PyExn + list string :=
  match v with
  | PStr s => inr (Re.findall p s)
  | _ => inl (TypeError "expected string or bytes-like object")
  end.

(** The items of a list of values as text; [None] when one is not a string. *)
Fixpoint all_text (l : list PyVal) : option (list string) :=
  match l with
  | [] => Some []
  | PStr s :: l' => cons s <$> all_text l'
  | _ :: _ => None
  end.

(** [sep.join(l)]: [TypeError] when an item is not a string. *)
Definition str_join (sep : string) (l : list PyVal) : PyExn + string :=
  match all_text l with
  | Some ss => inr (Str.join sep ss)
  | None => inl (TypeError "sequence item: expected str instance")
  end.

(** Truth value of a list: non-empty. *)
Definition list_truthy {A} (l : list A) : bool :=
  match l with [] => false | _ :: _ => true end.

(** ** The artifact extractor *)

(** The objects an extraction call works on: the [messages] list it was
    handed (the caller's own list object) and the list it builds locally
    ([code_blocks], [reviews]). *)
Record Frame := mkFrame {
  messages : list Message;
  local_list : list PyVal
}.

(** Computations over a frame that may raise; the frame survives a raise. *)
Definition Extract (A : Type) : Type := Frame -> (PyExn + A) * Frame.

Definition ret {A} (a : A) : Extract A := fun fr => (inr a, fr).

Definition bind {A B} (c : Extract A) (k : A -> Extract B) : Extract B :=
  fun fr =>
    match c fr with
    | (inl e, fr') => (inl e, fr')
    | (inr a, fr') => k a fr'
    end.

Declare Scope extract_scope.
Delimit Scope extract_scope with extract.
Notation "'let*' x ':=' c 'in' k" := (bind c (fun x => k))
  (at level 10, x name, c at level 100, k at level 200) : extract_scope.

Definition lift {A} (r : PyExn + A) : Extract A := fun fr => (r, fr).

Definition read_messages : Extract (list Message) :=
  fun fr => (inr (messages fr), fr).

(** [xs = []] *)
Definition new_list : Extract unit :=
  fun fr => (inr tt, mkFrame (messages fr) []).

(** [xs.extend(l)] *)
Definition list_extend (l : list PyVal) : Extract unit :=
  fun fr => (inr tt, mkFrame (messages fr) (local_list fr ++ l)).

(** [xs.append(v)] *)
Definition list_append (v : PyVal) : Extract unit :=
  list_extend [v].

Definition read_list : Extract (list PyVal) :=
  fun fr => (inr (local_list fr), fr).

(** [for x in l: body(x)]; a raise leaves the loop. *)
Fixpoint for_each {A} (l : list A) (body : A -> Extract unit) : Extract unit :=
  match l with
  | [] => ret tt
  | x :: l' => bind (body x) (fun _ => for_each l' body)
  end.

Local Open Scope extract_scope.

(** The body of the loop of [_extract_code_from_messages]. *)
Definition code_loop_body (agent_name : string) (message : Message) : Extract unit :=
  if py_eq_str (dict_get message "source") agent_name then
    let content := dict_get_default message "content" (PStr "") in
    (* Look for code blocks (markdown format) *)
    let* code_matches := lift (re_findall code_block_pattern content) in
    list_extend (PStr <$> code_matches)
  else ret tt.

Definition _extract_code_from_messages (agent_name : string) : Extract string :=
  let* _ := new_list in
  let* msgs := read_messages in
  let* _ := for_each msgs (code_loop_body agent_name) in
  let* code_blocks := read_list in
  if list_truthy code_blocks
  then lift (str_join (Str.nl +:+ Str.nl) code_blocks)
  else ret "No code found".

(** The body of the loop of [_extract_review_from_messages]. *)
Definition review_loop_body (agent_name : string) (message : Message) : Extract unit :=
  if py_eq_str (dict_get message "source") agent_name then
    let content := dict_get_default message "content" (PStr "") in
    list_append content
  else ret tt.

Definition _extract_review_from_messages (agent_name : string) : Extract string :=
  let* _ := new_list in
  let* msgs := read_messages in
  let* _ := for_each msgs (review_loop_body agent_name) in
  let* reviews := read_list in
  if list_truthy reviews
  then lift (str_join (Str.nl +:+ Str.nl) reviews)
  else ret "No review found".

Local Close Scope extract_scope.

(** A call from outside: the value returned or the exception raised. *)
Definition extractCode (msgs : list Message) (agent_name : string) : PyExn + string :=
  fst (_extract_code_from_messages agent_name (mkFrame msgs [])).

Definition extractReview (msgs : list Message) (agent_name : string) : PyExn + string :=
  fst (_extract_review_from_messages agent_name (mkFrame msgs [])).

(** ** The objects of the agent framework

    The workflow builds these through the constructors of
    [autogen_agentchat] and [autogen_ext]; it never looks inside them, so
    they are kept as plain values built from the constructor arguments.
    The constructor of the model client can refuse its arguments, so the
    workflow's own constructor takes it as a function that may raise. *)

Record OpenAIChatCompletionClient := mkClient {
  client_model : string;
  client_temperature : Q
}.

Record AssistantAgent := mkAgent {
  name : string;
  model_client : OpenAIChatCompletionClient;
  system_message : string
}.

(** [MaxMessageTermination(max_messages=n)], [TextMentionTermination(s)]
    and the [|] of two conditions. *)
Inductive TerminationCondition :=
| MaxMessageTermination (max_messages : Z)
| TextMentionTermination (text : string)
| OrTermination (a b : TerminationCondition).

Record RoundRobinGroupChat := mkTeam {
  participants : list AssistantAgent
}.

(** What a team run hands back; [result.messages] and [result.usage] are
    looked up with [hasattr] / [getattr], so either may be missing. *)
Record TaskResult := mkTaskResult {
  result_messages : option (list Message);
  result_usage : option (gmap string Z)
}.

(** ** The process around the workflow *)

Inductive Event :=
| EvSetEnv (key value : string)
| EvModelClient
| EvAgent (agent : string)
| EvTermination.

(** A printed line; the elapsed time is formatted by [:.2f], which is
    kept symbolic. *)
Inductive Line :=
| Text (s : string)
| Elapsed (prefix : string) (micros : Z) (suffix : string).

Record World := mkWorld {
  environ : gmap string string;       (* os.environ *)
  wall_clock : Z;                     (* datetime.now(), in microseconds *)
  stdout : list Line;                 (* what print has written *)
  trace : list Event                  (* constructor calls, in order *)
}.

(** The NUL character, as a one-character string. *)
Definition nul : string := String (ascii_of_nat 0) EmptyString.

(** [os.environ[k] = v]: the operating system interface raises for a NUL
    in the name or in the value, for an empty name and for a name with an
    equals sign, and then nothing is written. *)
Definition set_environ (k v : string) (w : World) : PyExn + World :=
  if Str.contains nul k || Str.contains nul v then
    inl (ValueError "embedded null byte")
  else if negb (Str.truthy k) || Str.contains "=" k then
    inl (ValueError "illegal environment variable name")
  else
    inr (mkWorld (<[k := v]> (environ w)) (wall_clock w) (stdout w)
                 (trace w ++ [EvSetEnv k v])).

Definition log (ev : Event) (w : World) : World :=
  mkWorld (environ w) (wall_clock w) (stdout w) (trace w ++ [ev]).

Definition print (l : Line) (w : World) : World :=
  mkWorld (environ w) (wall_clock w) (stdout w ++ [l]) (trace w).

Definition print_all (ls : list Line) (w : World) : World :=
  foldl (fun w l => print l w) w ls.

(** [os.getenv(k)] *)
Definition getenv (k : string) (w : World) : option string := environ w !! k.

(** Truth value of an [Optional[str]]: neither [None] nor empty. *)
Definition opt_truthy (o : option string) : bool :=
  match o with
  | Some s => Str.truthy s
  | None => false
  end.

(** [str(e)] *)
Definition exn_str (e : PyExn) : string :=
  match e with
  | ValueError m | TypeError m | OtherException _ m | BaseOnly _ m => m
  end.

(** [isinstance(e, Exception)] *)
Definition is_Exception (e : PyExn) : bool :=
  match e with
  | BaseOnly _ _ => false
  | _ => true
  end.

(** An awaited call: it may not return at all ([None]), raise or return. *)
Definition Await (A : Type) : Type := World -> option ((PyExn + A) * World).

(** ** [CodeDevelopmentWorkflow] *)

Record WorkflowResult := mkWorkflowResult {
  original_task : string;
  initial_code : string;
  review_feedback : string;
  final_code : string;
  conversation_history : list Message;
  execution_time : Z;                 (* microseconds; the source divides into a float *)
  token_usage : option (gmap string Z)
}.

Record CodeDevelopmentWorkflow := mkWorkflow {
  self_model : string;
  self_temperature : Q;
  max_rounds : Z;
  self_model_client : OpenAIChatCompletionClient;
  code_writer : AssistantAgent;
  code_reviewer : AssistantAgent;
  code_optimizer : AssistantAgent;
  termination_condition : TerminationCondition
}.

Definition writer_system_message : string :=
"You are a skilled software developer specializing in writing clean, efficient code.

Your responsibilities:
1. Analyze the given requirements carefully
2. Write well-structured, functional code that meets the specifications
3. Include appropriate comments and docstrings
4. Follow best practices and coding conventions
5. Provide a brief explanation of your implementation approach

Guidelines:
- Write production-ready code with proper error handling
- Use meaningful variable and function names
- Include type hints where appropriate (Python)
- Keep code modular and maintainable
- Focus on correctness and readability

When you complete your code, end your message with " +:+ Str.dq +:+ "CODE_WRITTEN"
  +:+ Str.dq +:+ " to signal completion.".

Definition reviewer_system_message : string :=
"You are an expert code reviewer with extensive experience in software quality assurance.

Your responsibilities:
1. Thoroughly analyze the provided code for quality, efficiency, and best practices
2. Identify potential improvements in performance, readability, and maintainability
3. Check for security vulnerabilities and edge cases
4. Suggest specific optimizations and refactoring opportunities
5. Provide constructive, actionable feedback

Review criteria:
- Code correctness and functionality
- Performance optimization opportunities
- Security considerations
- Code style and conventions
- Error handling and edge cases
- Maintainability and scalability
- Documentation quality

Provide your review in a structured format:
- Overall Assessment
- Strengths
- Areas for Improvement
- Specific Recommendations
- Security Considerations (if any)

When you complete your review, end your message with " +:+ Str.dq +:+ "REVIEW_COMPLETE"
  +:+ Str.dq +:+ " to signal completion.".

Definition optimizer_system_message : string :=
"You are a code optimization specialist focused on improving code quality and performance.

Your responsibilities:
1. Take the original code and the reviewer's feedback
2. Implement the suggested improvements and optimizations
3. Enhance performance while maintaining functionality
4. Improve code structure and readability
5. Add any missing error handling or edge case coverage

Optimization priorities:
- Implement all valid suggestions from the code review
- Optimize for performance without sacrificing readability
- Enhance error handling and robustness
- Improve code documentation and comments
- Ensure backward compatibility if applicable
- Maintain or improve test coverage

Provide:
- The optimized code with all improvements
- A summary of changes made
- Performance improvements achieved
- Any additional considerations for future development

When you complete the optimization, end your message with " +:+ Str.dq +:+ "WORKFLOW_COMPLETE"
  +:+ Str.dq +:+ " to signal completion.".

(** The three agents of [_create_agents], in the order they are created. *)
Definition _create_agents (client : OpenAIChatCompletionClient) (w : World)
  : (AssistantAgent * AssistantAgent * AssistantAgent) * World :=
  let writer := mkAgent "CodeWriter" client writer_system_message in
  let w := log (EvAgent "CodeWriter") w in
  let reviewer := mkAgent "CodeReviewer" client reviewer_system_message in
  let w := log (EvAgent "CodeReviewer") w in
  let optimizer := mkAgent "CodeOptimizer" client optimizer_system_message in
  let w := log (EvAgent "CodeOptimizer") w in
  ((writer, reviewer, optimizer), w).

Definition api_key_error : PyExn :=
  ValueError "OpenAI API key must be provided via parameter or OPENAI_API_KEY environment variable".

(** [CodeDevelopmentWorkflow.__init__]: the new object, or the exception.
    [new_model_client] is the constructor [OpenAIChatCompletionClient] of
    the framework, which may raise (for a model it does not know, say). *)
Definition __init__
    (new_model_client : string -> Q -> PyExn + OpenAIChatCompletionClient)
    (model : string) (temperature : Q) (max_rounds : Z)
    (api_key : option string) (w : World)
  : (PyExn + CodeDevelopmentWorkflow) * World :=
  (* Set up API key *)
  let key_step : PyExn + World :=
    if opt_truthy api_key
    then set_environ "OPENAI_API_KEY" (default "" api_key) w
    else if negb (opt_truthy (getenv "OPENAI_API_KEY" w)) then inl api_key_error
    else inr w in
  match key_step with
  | inl e => (inl e, w)
  | inr w =>
      (* Initialize model client *)
      match new_model_client model temperature with
      | inl e => (inl e, w)
      | inr client =>
          let w := log EvModelClient w in
          let '((writer, reviewer, optimizer), w) := _create_agents client w in
          let cond :=
            OrTermination (MaxMessageTermination max_rounds)
                          (TextMentionTermination "WORKFLOW_COMPLETE") in
          let w := log EvTermination w in
          (inr (mkWorkflow model temperature max_rounds client
                           writer reviewer optimizer cond), w)
      end
  end.

(** The defaults of the constructor's keyword arguments. *)
Definition default_model : string := "gpt-4".
Definition default_temperature : Q := 1 # 10.
Definition default_max_rounds : Z := 10.

Definition banner : string := String.concat "" (repeat "=" 60).

(** The lines [run] prints before it starts the team. *)
Definition announce (self : CodeDevelopmentWorkflow) (task : string)
    (verbose : bool) (w : World) : World :=
  if verbose then
    print_all [ Text "🚀 Starting Code Development Workflow";
                Text ("📋 Task: " +:+ task);
                Text ("🤖 Model: " +:+ self_model self);
                Text banner ] w
  else w.

(** [RoundRobinGroupChat(participants=[writer, reviewer, optimizer])] *)
Definition team_of (self : CodeDevelopmentWorkflow) : RoundRobinGroupChat :=
  mkTeam [code_writer self; code_reviewer self; code_optimizer self].

Section Run.

(** The two entry points of the framework that [run] awaits:
    [team.run(task=..., termination_condition=...)] and
    [console.run_stream(task=..., team=..., termination_condition=...)]. *)
Variable team_run :
  RoundRobinGroupChat -> string -> TerminationCondition -> Await TaskResult.
Variable console_run_stream :
  RoundRobinGroupChat -> string -> TerminationCondition -> Await TaskResult.

(** What [datetime.now()] shows when [run] reads the clock a second time,
    after the three extractions, in the process the awaited call left:
    later than that call returned by the time the extractions took, of
    which the workflow knows nothing. *)
Variable clock_after : World -> Z.

(** The three extractions and the construction of the result; the one
    [conversation_history] list object is handed to each extraction in
    turn. *)
Definition build_result (task : string) (result : TaskResult)
    (start_time : Z) (w : World) : PyExn + WorkflowResult :=
  let conversation_history := default [] (result_messages result) in
  match _extract_code_from_messages "CodeWriter" (mkFrame conversation_history []) with
  | (inl e, _) => inl e
  | (inr initial_code, fr1) =>
      match _extract_review_from_messages "CodeReviewer" (mkFrame (messages fr1) []) with
      | (inl e, _) => inl e
      | (inr review_feedback, fr2) =>
          match _extract_code_from_messages "CodeOptimizer" (mkFrame (messages fr2) []) with
          | (inl e, _) => inl e
          | (inr final_code, fr3) =>
              let execution_time := clock_after w - start_time in
              inr (mkWorkflowResult task initial_code review_feedback final_code
                     (messages fr3) execution_time (result_usage result))
          end
      end
  end.

(** The [except Exception as e] clause: report when verbose, re-raise. *)
Definition except_clause (verbose : bool) (e : PyExn) (w : World)
  : (PyExn + WorkflowResult) * World :=
  if is_Exception e then
    (inl e, if verbose
            then print (Text (Str.nl +:+ "❌ Error during workflow execution: "
                              +:+ exn_str e)) w
            else w)
  else (inl e, w).

Definition run (self : CodeDevelopmentWorkflow) (task : string) (verbose : bool)
  : Await WorkflowResult :=
  fun w =>
    let start_time := wall_clock w in
    let w := announce self task verbose w in
    (* Create the round-robin team *)
    let team := team_of self in
    (* try: *)
    let awaited :=
      if verbose
      then console_run_stream team task (termination_condition self) w
      else team_run team task (termination_condition self) w in
    match awaited with
    | None => None
    | Some (inl e, w) => Some (except_clause verbose e w)
    | Some (inr result, w) =>
        match build_result task result start_time w with
        | inl e => Some (except_clause verbose e w)
        | inr workflow_result =>
            let w :=
              if verbose then
                print_all [ Text (Str.nl +:+ banner);
                            Text "✅ Workflow completed successfully!";
                            Elapsed "⏱️  Execution time: "
                                    (execution_time workflow_result) " seconds";
                            Text banner ] w
              else w in
            Some (inr workflow_result, w)
        end
    end.

End Run.

(** ** The round-robin conversation engine *)

Module Scheduler.

(** Modelled from the spec: the message of the data model (section 3),
    which the repository only ever sees as a dictionary returned by the
    framework. *)
Record SMessage := mkSMessage {
  source : string;
  content : string;
  index : nat
}.

Abbreviation Transcript := (list SMessage).

(** Modelled from the spec: the failures of section 7 that end a run; the
    framework's own exception classes are absent from the sources. *)
Inductive Failure :=
| GenerationFailure (cause : string)
| ConfigurationError (what : string).

(** Modelled from the spec: the Completion Client boundary of section 6,
    [complete(transcript, directive) -> text], which may fail.  It is the
    external text-generation service; nothing of it is in the sources. *)
Definition CompletionClient := Transcript -> string -> Failure + string.

(** Modelled from the spec: the source of the seed message "denotes
    task" (section 4.3). *)
Definition task_source : string := "task".

Definition seed (task : string) : SMessage := mkSMessage task_source task 0.

(** Modelled from the spec: [produce(transcript) -> Message] of section
    4.1; the agent composes its directive with the transcript, asks the
    client, and tags the text with its own name.  The agent abstraction
    is [AssistantAgent] of the framework, absent from the sources. *)
Definition produce (client : CompletionClient) (a : AssistantAgent)
    (tr : Transcript) : Failure + SMessage :=
  match client tr (system_message a) with
  | inl f => inl f
  | inr text => inr (mkSMessage (name a) text (length tr))
  end.

(** Modelled from the spec: the Termination Evaluator of section 4.2, a
    predicate over the transcript and the turn counter.  Max-Turns is
    true when [turnCount >= limit]; Sentinel-Match is true when the most
    recently appended message contains the phrase; the composite is the
    logical or.  The evaluators are [MaxMessageTermination] and
    [TextMentionTermination] of the framework, absent from the sources. *)
Fixpoint terminated (c : TerminationCondition) (tr : Transcript)
    (turnCount : nat) : bool :=
  match c with
  | MaxMessageTermination limit => (limit <=? Z.of_nat turnCount)%Z
  | TextMentionTermination phrase =>
      match last tr with
      | Some m => Str.contains phrase (content m)
      | None => false
      end
  | OrTermination a b => terminated a tr turnCount || terminated b tr turnCount
  end.

(** Modelled from the spec: the states of the scheduler (section 4.3). *)
Inductive State :=
| Idle
| Running (tr : Transcript) (turnCount : nat)
| Completed (tr : Transcript)
| Failed (f : Failure) (tr : Transcript).

Section Engine.

Variable client : CompletionClient.
Variable agents : list AssistantAgent.
Variable cond : TerminationCondition.

(** Modelled from the spec: [start(task)] seeds the transcript with the
    task message (section 4.3). *)
Definition start (task : string) : State := Running [seed task] 0.

(** Modelled from the spec: one turn of the loop of section 4.3: select
    the next agent in rotation, call [produce], append the result,
    increment the turn counter, evaluate termination.  A failure of the
    agent moves to [Failed] with the transcript as it was; so does a
    list with no agent to select, which the spec rules out as a
    configuration fault.  This is the run loop of [RoundRobinGroupChat],
    absent from the sources. *)
Definition turn (st : State) : State :=
  match st with
  | Running tr n =>
      match agents !! (n mod length agents)%nat with
      | None => Failed (ConfigurationError "empty agent list") tr
      | Some a =>
          match produce client a tr with
          | inl f => Failed f tr
          | inr m =>
              let tr' := tr ++ [m] in
              if terminated cond tr' (S n) then Completed tr'
              else Running tr' (S n)
          end
      end
  | _ => st
  end.

(** Modelled from the spec: the turn loop of section 4.3, which goes on
    until a turn completes or fails; here for at most [fuel] turns. *)
Fixpoint turns (fuel : nat) (st : State) : State :=
  match fuel with
  | O => st
  | S fuel' => turns fuel' (turn st)
  end.

(** Modelled from the spec: a run from [start(task)] on. *)
Definition run_team (fuel : nat) (task : string) : State :=
  turns fuel (start task).

End Engine.

(** Modelled from the spec: the transcript a state holds (the final
    transcript, or the partial one of a failed run). *)
Definition transcript (st : State) : Transcript :=
  match st with
  | Idle => []
  | Running tr _ | Completed tr | Failed _ tr => tr
  end.

(** The messages produced by agents: the transcript without its seed. *)
Definition produced (st : State) : Transcript := tail (transcript st).

(** Modelled from the spec: a message as the dictionary with the keys
    [source] and [content] that the extractor of the sources reads; the
    framework's message classes are absent from the sources. *)
Definition as_dict (m : SMessage) : Message :=
  {[ "source" := PStr (source m); "content" := PStr (content m) ]}.

(** Modelled from the spec: a failure reaches the caller as an exception
    carrying its cause (section 7). *)
Definition exn_of (f : Failure) : PyExn :=
  match f with
  | GenerationFailure cause => OtherException "GenerationFailure" cause
  | ConfigurationError what => OtherException "ConfigurationError" what
  end.

(** Modelled from the spec: the engine behind the two entry points that
    [run] awaits ([team.run] and [console.run_stream] of the framework,
    absent from the sources): the final transcript on completion, the
    failure otherwise (section 4.3); a run that has not finished within
    [fuel] turns has not returned. *)
Definition team_run (client : CompletionClient) (fuel : nat)
    (team : RoundRobinGroupChat) (task : string) (cond : TerminationCondition)
  : Await TaskResult :=
  fun w =>
    match run_team client (participants team) cond fuel task with
    | Completed tr => Some (inr (mkTaskResult (Some (as_dict <$> tr)) None), w)
    | Failed f _ => Some (inl (exn_of f), w)
    | Idle | Running _ _ => None
    end.

End Scheduler.

(** ** What the extractor is specified to return *)

(** The message was produced by the agent. *)
Definition from_agent (agent_name : string) (m : Message) : Prop :=
  m !! "source" = Some (PStr agent_name).

#[global] Instance from_agent_dec agent_name m : Decision (from_agent agent_name m).
Proof. unfold from_agent. apply _. Defined.

(** The content of a message is text, or is missing. *)
Definition content_is_text (m : Message) : Prop :=
  match m !! "content" with
  | Some (PStr _) | None => True
  | Some _ => False
  end.

#[global] Instance content_is_text_dec m : Decision (content_is_text m).
Proof. unfold content_is_text. destruct (m !! "content") as [[]|]; apply _. Defined.

(** The text of a message; empty when the content is missing. *)
Definition text_of (m : Message) : string :=
  match m !! "content" with
  | Some (PStr s) => s
  | _ => ""
  end.

(** The texts of the agent's messages, in transcript order. *)
Definition agent_texts (msgs : list Message) (agent_name : string) : list string :=
  text_of <$> filter (from_agent agent_name) msgs.

Definition fence : string := "```".

(** The closing marker: a line feed and a fence. *)
Definition closing : string := Str.nl +:+ fence.

(** No closing marker starts inside [body] when [body] is followed by
    a closing marker and [rest]: the marker after [body] is the first. *)
Fixpoint no_close_inside (body rest : string) : Prop :=
  match body with
  | EmptyString => True
  | String c body' =>
      Str.strip_prefix closing (body +:+ closing +:+ rest) = None
      /\ no_close_inside body' rest
  end.

Section Regions.

(** Which annotations of the opening fence are accepted. *)
Variable tag_ok : string -> Prop.

(** A complete fenced region starts at the beginning of [s]: an opening
    fence, an accepted annotation, a line feed, the body, and the first
    closing marker after it. *)
Definition opens_region (s body rest : string) : Prop :=
  exists tag,
    tag_ok tag /\ no_close_inside body rest
    /\ s = fence +:+ tag +:+ Str.nl +:+ body +:+ closing +:+ rest.

(** The bodies of the fenced regions of a text, left to right, regions
    not overlapping. *)
Inductive fenced_regions : string -> list string -> Prop :=
| regions_end : fenced_regions "" []
| regions_skip c s bodies :
    (forall body rest, ~ opens_region (String c s) body rest) ->
    fenced_regions s bodies ->
    fenced_regions (String c s) bodies
| regions_block s body rest bodies :
    opens_region s body rest ->
    fenced_regions rest bodies ->
    fenced_regions s (body :: bodies).

End Regions.

(** The annotation the source accepts: none, or [python]. *)
Definition python_tag (tag : string) : Prop := tag = "" \/ tag = "python".

(** Any annotation: a piece of text on the line of the opening fence. *)
Definition any_tag (tag : string) : Prop := Str.contains Str.nl tag = false.

(** What the extractions return for the pieces they collected. *)
Definition joined_or (absent : string) (pieces : list string) : string :=
  match pieces with
  | [] => absent
  | _ :: _ => Str.join (Str.nl +:+ Str.nl) pieces
  end.

(** The value the extractor reads as the content of a message. *)
Definition content_of (m : Message) : PyVal :=
  default (PStr "") (m !! "content").

(** The code blocks of a sequence of contents, left to right; the first
    content that is not text raises. *)
Fixpoint collect_code (vals : list PyVal) : PyExn + list string :=
  match vals with
  | [] => inr []
  | v :: vals' =>
      match re_findall code_block_pattern v with
      | inl e => inl e
      | inr blocks =>
          match collect_code vals' with
          | inl e => inl e
          | inr more => inr (blocks ++ more)
          end
      end
  end.

(** What the matcher does on the pattern of code blocks, step by step. *)
Definition after_tag (r : string) : option (string * string) :=
  match Str.strip_prefix Str.nl r with
  | Some r' => Re.lazy_any (Re.match_here [Re.Lit closing]) r' ""
  | None => None
  end.

(** ** What construction is specified to check *)

(** An [Optional[str]] that counts as absent: [None] or the empty string. *)
Definition absent (o : option string) : Prop := o = None \/ o = Some "".

(** What [os.environ] raises for a value holding a NUL character. *)
Definition nul_error : PyExn := ValueError "embedded null byte".

(** A key that can be used: not empty, and free of NUL characters. *)
Definition usable (k : string) : Prop := k <> "" /\ Str.contains nul k = false.

(** A key is at hand: a usable [api_key], or, [api_key] being absent, a
    non-empty [OPENAI_API_KEY]. *)
Definition key_at_hand (api_key : option string) (w : World) : Prop :=
  (exists k, api_key = Some k /\ usable k)
  \/ (absent api_key /\ opt_truthy (getenv "OPENAI_API_KEY" w) = true).

(** The process after [os.environ["OPENAI_API_KEY"] = k]. *)
Definition with_key (k : string) (w : World) : World :=
  mkWorld (<["OPENAI_API_KEY" := k]> (environ w)) (wall_clock w) (stdout w)
          (trace w ++ [EvSetEnv "OPENAI_API_KEY" k]).

(** The constructor calls of a successful construction, in order. *)
Definition construction_events : list Event :=
  [ EvModelClient; EvAgent "CodeWriter"; EvAgent "CodeReviewer";
    EvAgent "CodeOptimizer"; EvTermination ].

(** The names of the participants of the team, in order. *)
Definition agent_names (self : CodeDevelopmentWorkflow) : list string :=
  name <$> participants (team_of self).

(** A process with nothing in its environment. *)
Definition empty_world : World := mkWorld ∅ 0 [] [].

(** ** What the conversation engine is specified to maintain *)

(** Message [i] was produced by agent [i mod len(agents)]. *)
Definition cyclic_order (agents : list AssistantAgent)
    (msgs : Scheduler.Transcript) : Prop :=
  forall i m,
    msgs !! i = Some m ->
    name <$> agents !! (i mod length agents)%nat = Some (Scheduler.source m).

(** No message of the list mentions the phrase. *)
Definition unmentioned (phrase : string) (msgs : Scheduler.Transcript) : Prop :=
  forall m, m ∈ msgs -> Str.contains phrase (Scheduler.content m) = false.

(** The phrase is mentioned by the last message at most. *)
Definition mentioned_last (phrase : string) (msgs : Scheduler.Transcript) : Prop :=
  forall i m,
    msgs !! i = Some m ->
    Str.contains phrase (Scheduler.content m) = true ->
    length msgs = S i.

(** What holds of every state the engine reaches: the turn counter counts
    the produced messages, they come in rotation, and a run goes on only
    while the phrase has not been mentioned and the limit not reached. *)
Definition engine_inv (agents : list AssistantAgent) (limit : Z) (phrase : string)
    (st : Scheduler.State) : Prop :=
  match st with
  | Scheduler.Idle => True
  | Scheduler.Running tr n =>
      length tr = S n
      /\ cyclic_order agents (tail tr)
      /\ unmentioned phrase (tail tr)
      /\ (n = 0%nat \/ Z.of_nat n < limit)
  | Scheduler.Completed tr =>
      tr <> []
      /\ cyclic_order agents (tail tr)
      /\ mentioned_last phrase (tail tr)
      /\ (length (tail tr) = 1%nat \/ Z.of_nat (length (tail tr)) <= limit)
  | Scheduler.Failed _ tr =>
      cyclic_order agents (tail tr) /\ unmentioned phrase (tail tr)
  end.

(** ** Sample data *)

(** A framework whose client constructor accepts every model, and one
    that knows no model. *)
Definition any_model_client : string -> Q -> PyExn + OpenAIChatCompletionClient :=
  fun model temperature => inr (mkClient model temperature).


(** A clock on which the extractions take a quarter of a millisecond. *)
Definition late_clock : World -> Z := fun w => wall_clock w + 250.

(** A client for sample runs: it answers every request, and the fourth
    message it is asked for (the writer's second turn) mentions the
    phrase. *)
Definition sample_client : Scheduler.CompletionClient :=
  fun tr _ =>
    inr (if (length tr =? 4)%nat then "All done. WORKFLOW_COMPLETE" else "Working on it.").

(** A client that never mentions the phrase. *)
Definition quiet_client : Scheduler.CompletionClient :=
  fun _ _ => inr "Working on it.".

(** A framework whose team run fails at once, for sample runs. *)
Definition failing_team (e : PyExn)
  : RoundRobinGroupChat -> string -> TerminationCondition -> Await TaskResult :=
  fun _ _ _ w => Some (inl e, w).

(** The workflow built with the defaults and the key ["sk-test"]. *)
Definition sample_workflow : CodeDevelopmentWorkflow :=
  let client := mkClient default_model default_temperature in
  mkWorkflow default_model default_temperature default_max_rounds client
    (mkAgent "CodeWriter" client writer_system_message)
    (mkAgent "CodeReviewer" client reviewer_system_message)
    (mkAgent "CodeOptimizer" client optimizer_system_message)
    (OrTermination (MaxMessageTermination default_max_rounds)
                   (TextMentionTermination "WORKFLOW_COMPLETE")).

(** A message dictionary with both keys. *)
Definition message_dict (src text : string) : Message :=
  {[ "source" := PStr src; "content" := PStr text ]}.

(** A small finished transcript: the task, a writer message with a code
    block, a review, an optimizer message with two blocks, a record with no
    source and a reviewer record with no content. *)
Definition sample_transcript : list Message :=
  [ message_dict "user" "Write add";
    message_dict "CodeWriter"
      ("Here:" +:+ Str.nl +:+ fence +:+ "python" +:+ Str.nl
       +:+ "def add(a, b): return a + b" +:+ closing +:+ Str.nl +:+ "CODE_WRITTEN");
    message_dict "CodeReviewer" "Looks fine. REVIEW_COMPLETE";
    message_dict "CodeOptimizer"
      (fence +:+ Str.nl +:+ "add = int.__add__" +:+ closing +:+ " and "
       +:+ fence +:+ "python" +:+ Str.nl +:+ "pass" +:+ closing
       +:+ Str.nl +:+ "WORKFLOW_COMPLETE");
    {[ "content" := PStr "stray" ]};
    {[ "source" := PStr "CodeReviewer" ]} ].

(** ** Further notions for the extractor *)

(** The code blocks the extraction collects from the agent's messages, in
    transcript order. *)
Definition code_blocks (msgs : list Message) (agent_name : string) : list string :=
  concat (Re.findall code_block_pattern <$> agent_texts msgs agent_name).

(** The separator of the pieces: a blank line. *)
Definition blank_line : string := Str.nl +:+ Str.nl.

(** [t] occurs in [s] as a contiguous piece. *)
Definition substring_of (t s : string) : Prop :=
  exists before after, s = before +:+ t +:+ after.

(** The total length of the strings of a list. *)
Definition total_length (l : list string) : nat :=
  foldr (fun s n => (String.length s + n)%nat) 0%nat l.

(** A framework whose team run returns a given result at once. *)
Definition canned_team (r : TaskResult)
  : RoundRobinGroupChat -> string -> TerminationCondition -> Await TaskResult :=
  fun _ _ _ w => Some (inr r, w).

(** The three agent names [run] extracts for. *)
Definition extracted_agents : list string :=
  ["CodeWriter"; "CodeReviewer"; "CodeOptimizer"].

(** A team answer holding the sample transcript, and one with no
    [messages] attribute. *)
Definition sample_answer : TaskResult := mkTaskResult (Some sample_transcript) None.

Definition bare_answer : TaskResult := mkTaskResult None None.

(** The result [run] builds from the sample answer, silently, in the empty
    process. *)
Definition sample_result : WorkflowResult :=
  match run (canned_team sample_answer) (canned_team sample_answer) late_clock
            sample_workflow "Write add" false empty_world with
  | Some (inr result, _) => result
  | _ => mkWorkflowResult "" "" "" "" [] 0 None
  end.

(** ** The example program of the module *)

(** The task of [main], as written in the source. *)
Definition main_task : string :=
"
    Create a Python function that calculates the Fibonacci sequence up to n terms 
    using dynamic programming for optimal performance. The function should:
    
    1. Accept an integer n as input
    2. Return a list of Fibonacci numbers up to n terms
    3. Handle edge cases (n <= 0, n = 1, n = 2)
    4. Use dynamic programming to optimize performance
    5. Include proper input validation and error handling
    6. Provide comprehensive docstring with examples
    ".

Section Main.

Variable team_run :
  RoundRobinGroupChat -> string -> TerminationCondition -> Await TaskResult.
Variable console_run_stream :
  RoundRobinGroupChat -> string -> TerminationCondition -> Await TaskResult.
Variable clock_after : World -> Z.

(** [OpenAIChatCompletionClient(...)] of the framework. *)
Variable new_model_client : string -> Q -> PyExn + OpenAIChatCompletionClient.

(** [model_client.close()] of the framework. *)
Variable client_close : OpenAIChatCompletionClient -> Await unit.

(** [CodeDevelopmentWorkflow.close]: the model client, an object of the
    framework, counts as true, so it is closed. *)
Definition close (self : CodeDevelopmentWorkflow) : Await unit :=
  client_close (self_model_client self).

(** What [main] prints for a result. *)
Definition report (result : WorkflowResult) : list Line :=
  [ Text (Str.nl +:+ String.concat "" (repeat "=" 80));
    Text "📊 WORKFLOW RESULTS";
    Text (String.concat "" (repeat "=" 80));
    Text (Str.nl +:+ "🎯 ORIGINAL TASK:");
    Text (original_task result);
    Text (Str.nl +:+ "📝 INITIAL CODE:");
    Text (initial_code result);
    Text (Str.nl +:+ "🔍 REVIEW FEEDBACK:");
    Text (review_feedback result);
    Text (Str.nl +:+ "🚀 FINAL OPTIMIZED CODE:");
    Text (final_code result);
    Elapsed (Str.nl +:+ "⏱️ EXECUTION TIME: ") (execution_time result) " seconds" ].

(** The [try] / [except Exception] part of [main]: what is still being
    raised when the [finally] clause starts, and the process then. *)
Definition main_try (workflow : CodeDevelopmentWorkflow) : Await unit :=
  fun w =>
    match run team_run console_run_stream clock_after workflow main_task true w with
    | None => None
    | Some (inr result, w) => Some (inr tt, print_all (report result) w)
    | Some (inl e, w) =>
        if is_Exception e
        then Some (inr tt, print (Text ("❌ Error: " +:+ exn_str e)) w)
        else Some (inl e, w)
    end.

(** [main]: the workflow is constructed outside the [try]; the [finally]
    clause closes it on every way out of the [try], and an exception of
    [close] replaces the one being raised. *)
Definition main : Await unit :=
  fun w =>
    match __init__ new_model_client "gpt-4o-mini" (1 # 10) 12 None w with
    | (inl e, w) => Some (inl e, w)
    | (inr workflow, w) =>
        match main_try workflow w with
        | None => None
        | Some (pending, w) =>
            match close workflow w with
            | None => None
            | Some (inl e, w) => Some (inl e, w)
            | Some (inr _, w) => Some (pending, w)
            end
        end
    end.

End Main.

(** The process after [run], verbose, and [main] have each reported the
    exception [e]; one that is not an [Exception] is reported by
    neither. *)
Definition reported (e : PyExn) (w : World) : World :=
  if is_Exception e then
    print (Text ("❌ Error: " +:+ exn_str e))
      (print (Text (Str.nl +:+ "❌ Error during workflow execution: " +:+ exn_str e)) w)
  else w.

(** A client whose [close] returns at once. *)
Definition quiet_close : OpenAIChatCompletionClient -> Await unit :=
  fun _ w => Some (inr tt, w).

(** A process with a key in its environment, the workflow [main]
    constructs there, and the process after the construction. *)
Definition keyed_world : World :=
  mkWorld {[ "OPENAI_API_KEY" := "sk-test" ]} 0 [] [].

Definition main_workflow : CodeDevelopmentWorkflow :=
  let client := mkClient "gpt-4o-mini" (1 # 10) in
  mkWorkflow "gpt-4o-mini" (1 # 10) 12 client
    (mkAgent "CodeWriter" client writer_system_message)
    (mkAgent "CodeReviewer" client reviewer_system_message)
    (mkAgent "CodeOptimizer" client optimizer_system_message)
    (OrTermination (MaxMessageTermination 12)
                   (TextMentionTermination "WORKFLOW_COMPLETE")).

Definition main_world : World :=
  snd (__init__ any_model_client "gpt-4o-mini" (1 # 10) 12 None keyed_world).

(** ** The example scripts *)

(** *** [fibonacci_example.py]: the conversation analysis *)

(** One round of the loop over [result.conversation_history]: the message
    is appended to the list of its agent when the agent is a key of
    [agents_messages]; looking up a source that is a list raises, a list
    being unhashable. *)
Definition analysis_step (agents_messages : gmap string (list PyVal))
    (message : Message) : PyExn + gmap string (list PyVal) :=
  match dict_get_default message "source" (PStr "Unknown") with
  | PList _ => inl (TypeError "unhashable type: 'list'")
  | PStr agent =>
      match agents_messages !! agent with
      | Some collected =>
          inr (<[agent := collected ++ [dict_get_default message "content" (PStr "")]]>
                 agents_messages)
      | None => inr agents_messages
      end
  | PNone | PInt _ => inr agents_messages
  end.

Fixpoint analysis_loop (agents_messages : gmap string (list PyVal))
    (history : list Message) : PyExn + gmap string (list PyVal) :=
  match history with
  | [] => inr agents_messages
  | message :: history' =>
      match analysis_step agents_messages message with
      | inl e => inl e
      | inr agents_messages' => analysis_loop agents_messages' history'
      end
  end.

(** [agents_messages] after the loop. *)
Definition group_by_agent (history : list Message)
  : PyExn + gmap string (list PyVal) :=
  analysis_loop
    {[ "CodeWriter" := []; "CodeReviewer" := []; "CodeOptimizer" := [] ]}
    history.

(** The source of the message can be hashed: it is not a list. *)
Definition hashable_source (m : Message) : Prop :=
  match m !! "source" with
  | Some (PList _) => False
  | _ => True
  end.

#[global] Instance hashable_source_dec m : Decision (hashable_source m).
Proof. unfold hashable_source. destruct (m !! "source") as [[]|]; apply _. Defined.

(** *** [quick_start.py]: the code preview of the second demo *)

(** [s.split('\n')] *)
Fixpoint split_lines (s : string) : list string :=
  match s with
  | EmptyString => [""]
  | String c s' =>
      if decide (c = ascii_of_nat 10) then "" :: split_lines s'
      else
        match split_lines s' with
        | line :: lines => String c line :: lines
        | [] => [String c ""]
        end
  end.

(** A number as [print] shows it. *)
Definition show_nat (n : nat) : string :=
  NilEmpty.string_of_uint (Nat.to_uint n).

(** The lines printed for the preview of [final_code]: the heading, a
    rule, the first 15 lines, and the count of the lines left out when
    there are any. *)
Definition code_preview (final_code : string) : list Line :=
  let lines := split_lines final_code in
  let preview_lines := take 15 lines in
  [ Text (Str.nl +:+ "📝 CODE PREVIEW (first 15 lines):");
    Text (String.concat "" (repeat "-" 40));
    Text (Str.join Str.nl preview_lines) ]
  ++ (if (15 <? length lines)%nat
      then [ Text ("... and " +:+ show_nat (length lines - 15) +:+ " more lines") ]
      else []).

(** *** [quick_start.py]: the prerequisite check *)









(** A transcript whose writer message has a number as content. *)
Definition untyped_transcript : list Message :=
  [ message_dict "user" "Write add";
    {[ "source" := PStr "CodeWriter"; "content" := PInt 3 ]} ].

(** * Properties *)

(** ** Strings *)

Lemma str_app_nil_l (s : string) : "" +:+ s = s.
Proof. reflexivity. Qed.

Lemma str_app_cons (c : ascii) (s t : string) : String c s +:+ t = String c (s +:+ t).
Proof. reflexivity. Qed.

Lemma str_app_nil_r (s : string) : s +:+ "" = s.
Proof. induction s as [|c s IH]; [done|]. by rewrite str_app_cons, IH. Qed.

Lemma str_app_assoc (s t u : string) : (s +:+ t) +:+ u = s +:+ t +:+ u.
Proof. induction s as [|c s IH]; [done|]. by rewrite !str_app_cons, IH. Qed.

Lemma str_app_length (s t : string) :
  String.length (s +:+ t) = (String.length s + String.length t)%nat.
Proof. induction s as [|c s IH]; [done|]. rewrite str_app_cons. simpl. by rewrite IH. Qed.

Lemma snoc_app (s t : string) (c : ascii) : Str.snoc s c +:+ t = s +:+ String c t.
Proof. unfold Str.snoc. by rewrite str_app_assoc, str_app_cons, str_app_nil_l. Qed.

Lemma strip_prefix_app (p r : string) : Str.strip_prefix p (p +:+ r) = Some r.
Proof.
  induction p as [|a p IH]; [done|].
  rewrite str_app_cons. simpl. by rewrite decide_True.
Qed.

Lemma strip_prefix_Some (p s r : string) :
  Str.strip_prefix p s = Some r -> s = p +:+ r.
Proof.
  revert s. induction p as [|a p IH]; intros s H; simpl in H.
  - by inversion H.
  - destruct s as [|b s]; [done|].
    destruct (decide (a = b)) as [->|]; [|done].
    rewrite str_app_cons. f_equal. by apply IH.
Qed.

Lemma strip_prefix_None (p s : string) :
  Str.strip_prefix p s = None -> forall r, s <> p +:+ r.
Proof. intros H r ->. by rewrite strip_prefix_app in H. Qed.

Lemma contains_unfold (needle s : string) :
  Str.contains needle s =
  match Str.strip_prefix needle s with
  | Some _ => true
  | None => match s with EmptyString => false | String _ s' => Str.contains needle s' end
  end.
Proof. by destruct s. Qed.

Lemma contains_app (needle a b : string) :
  Str.contains needle (a +:+ needle +:+ b) = true.
Proof.
  induction a as [|c a IH].
  - by rewrite str_app_nil_l, contains_unfold, strip_prefix_app.
  - rewrite str_app_cons, contains_unfold.
    by destruct (Str.strip_prefix needle (String c (a +:+ needle +:+ b))).
Qed.

Lemma contains_true (needle s : string) :
  Str.contains needle s = true -> exists a b, s = a +:+ needle +:+ b.
Proof.
  induction s as [|c s IH]; rewrite contains_unfold.
  - destruct (Str.strip_prefix needle "") as [r|] eqn:E; [|done].
    intros _. exists "", r. rewrite str_app_nil_l. by apply strip_prefix_Some.
  - destruct (Str.strip_prefix needle (String c s)) as [r|] eqn:E.
    + intros _. exists "", r. rewrite str_app_nil_l. by apply strip_prefix_Some.
    + intros [a [b ->]]%IH. by exists (String c a), b.
Qed.

(** ** The pattern of code blocks *)

(** The continuation of the capture: the closing marker. *)
Lemma match_close (s cap : string) :
  Re.match_here [Re.Lit closing] s cap =
  match Str.strip_prefix closing s with
  | Some r => Some (cap, r)
  | None => None
  end.
Proof. reflexivity. Qed.

Lemma lazy_any_unfold k (s cap : string) :
  Re.lazy_any k s cap =
  match k s cap with
  | Some r => Some r
  | None =>
      match s with
      | EmptyString => None
      | String c s' => Re.lazy_any k s' (Str.snoc cap c)
      end
  end.
Proof. by destruct s. Qed.

Lemma lazy_any_sound (s cap g rest : string) :
  Re.lazy_any (Re.match_here [Re.Lit closing]) s cap = Some (g, rest) ->
  exists body,
    g = cap +:+ body /\ s = body +:+ closing +:+ rest /\ no_close_inside body rest.
Proof.
  revert cap. induction s as [|c s IH]; intros cap;
    rewrite lazy_any_unfold, match_close.
  - destruct (Str.strip_prefix closing "") as [r|] eqn:E; [|done].
    intros [= <- <-]. exists "". rewrite str_app_nil_r, str_app_nil_l.
    split_and!; [done| by apply strip_prefix_Some | done].
  - destruct (Str.strip_prefix closing (String c s)) as [r|] eqn:E.
    + intros [= <- <-]. exists "". rewrite str_app_nil_r, str_app_nil_l.
      split_and!; [done| by apply strip_prefix_Some | done].
    + intros (body & -> & -> & Hb)%IH. exists (String c body).
      rewrite snoc_app, str_app_cons. split_and!; [done|done|].
      cbn [no_close_inside]. split; [|done]. by rewrite str_app_cons.
Qed.

Lemma lazy_any_complete (body rest cap : string) :
  no_close_inside body rest ->
  Re.lazy_any (Re.match_here [Re.Lit closing]) (body +:+ closing +:+ rest) cap
  = Some (cap +:+ body, rest).
Proof.
  revert cap. induction body as [|c body IH]; intros cap Hb.
  - rewrite str_app_nil_l, str_app_nil_r.
    by rewrite lazy_any_unfold, match_close, strip_prefix_app.
  - destruct Hb as [Hc Hb]. rewrite str_app_cons in Hc |- *.
    rewrite lazy_any_unfold, match_close, Hc.
    rewrite IH by done. by rewrite snoc_app.
Qed.

Lemma lazy_any_None (s cap : string) :
  Re.lazy_any (Re.match_here [Re.Lit closing]) s cap = None ->
  forall body rest, s <> body +:+ closing +:+ rest.
Proof.
  revert cap. induction s as [|c s IH]; intros cap;
    rewrite lazy_any_unfold, match_close.
  - destruct (Str.strip_prefix closing "") eqn:E; [done|].
    intros _ [|c body] rest; [|done].
    rewrite str_app_nil_l. by apply strip_prefix_None.
  - destruct (Str.strip_prefix closing (String c s)) eqn:E; [done|].
    intros H [|c' body] rest.
    + rewrite str_app_nil_l. by apply strip_prefix_None.
    + rewrite str_app_cons. intros [= <- ->]. by eapply IH.
Qed.

Lemma match_block_unfold (s : string) :
  Re.match_here code_block_pattern s "" =
  match Str.strip_prefix fence s with
  | None => None
  | Some r =>
      match Str.strip_prefix "python" r with
      | Some r2 =>
          match after_tag r2 with
          | Some res => Some res
          | None => after_tag r
          end
      | None => after_tag r
      end
  end.
Proof. reflexivity. Qed.

Lemma after_tag_sound (r body rest : string) :
  after_tag r = Some (body, rest) ->
  no_close_inside body rest /\ r = Str.nl +:+ body +:+ closing +:+ rest.
Proof.
  unfold after_tag. destruct (Str.strip_prefix Str.nl r) as [r'|] eqn:E; [|done].
  apply strip_prefix_Some in E as ->.
  intros (b & -> & -> & Hb)%lazy_any_sound. by rewrite str_app_nil_l.
Qed.

Lemma after_tag_complete (body rest : string) :
  no_close_inside body rest ->
  after_tag (Str.nl +:+ body +:+ closing +:+ rest) = Some (body, rest).
Proof.
  intros Hb. unfold after_tag. rewrite strip_prefix_app.
  by rewrite lazy_any_complete.
Qed.

Lemma after_tag_python (r : string) : after_tag ("python" +:+ r) = None.
Proof. reflexivity. Qed.

Lemma match_block_sound (s body rest : string) :
  Re.match_here code_block_pattern s "" = Some (body, rest) ->
  opens_region python_tag s body rest.
Proof.
  rewrite match_block_unfold.
  destruct (Str.strip_prefix fence s) as [r|] eqn:E; [|done].
  apply strip_prefix_Some in E as ->.
  destruct (Str.strip_prefix "python" r) as [r2|] eqn:E2.
  - apply strip_prefix_Some in E2 as ->.
    destruct (after_tag r2) as [res|] eqn:E3.
    + intros [= ->]. apply after_tag_sound in E3 as [Hb ->].
      exists "python". split_and!; [by right|done|done].
    + by rewrite after_tag_python.
  - intros [Hb ->]%after_tag_sound.
    exists "". split_and!; [by left|done|done].
Qed.

Lemma match_block_complete (s body rest : string) :
  opens_region python_tag s body rest ->
  Re.match_here code_block_pattern s "" = Some (body, rest).
Proof.
  intros (tag & [-> | ->] & Hb & ->); rewrite match_block_unfold, strip_prefix_app.
  - rewrite str_app_nil_l.
    replace (Str.strip_prefix "python" (Str.nl +:+ body +:+ closing +:+ rest))
      with (@None string) by done.
    by apply after_tag_complete.
  - by rewrite strip_prefix_app, after_tag_complete.
Qed.

Lemma match_block_shorter (s body rest : string) :
  Re.match_here code_block_pattern s "" = Some (body, rest) ->
  (String.length rest < String.length s)%nat.
Proof.
  intros (tag & _ & _ & ->)%match_block_sound.
  rewrite !str_app_length. unfold fence, closing, Str.nl. simpl. lia.
Qed.

(** ** [findall] on the pattern of code blocks *)

Lemma findall_regions (fuel : nat) (s : string) :
  (String.length s < fuel)%nat ->
  fenced_regions python_tag s (Re.findall_from fuel code_block_pattern s).
Proof.
  revert s. induction fuel as [|fuel IH]; intros s Hlen; [lia|].
  cbn [Re.findall_from].
  destruct (Re.match_here code_block_pattern s "") as [[g rest]|] eqn:E.
  - pose proof (match_block_shorter _ _ _ E) as Hlt.
    rewrite (proj2 (Nat.ltb_lt _ _) Hlt).
    eapply regions_block; [by apply match_block_sound|].
    apply IH. lia.
  - destruct s as [|c s]; [constructor|].
    apply regions_skip.
    + intros body rest Ho%match_block_complete. congruence.
    + apply IH. simpl in Hlen. lia.
Qed.

Lemma regions_findall (fuel : nat) (s : string) (bodies : list string) :
  fenced_regions python_tag s bodies ->
  (String.length s < fuel)%nat ->
  Re.findall_from fuel code_block_pattern s = bodies.
Proof.
  intros H. revert fuel.
  induction H as [|c s bodies Hno _ IH|s body rest bodies Ho _ IH];
    intros [|fuel] Hlen; try lia; cbn [Re.findall_from].
  - done.
  - destruct (Re.match_here code_block_pattern (String c s) "")
      as [[g rest]|] eqn:E.
    + by apply match_block_sound, Hno in E.
    + apply IH. simpl in Hlen. lia.
  - pose proof (match_block_complete _ _ _ Ho) as E. rewrite E.
    pose proof (match_block_shorter _ _ _ E) as Hlt.
    rewrite (proj2 (Nat.ltb_lt _ _) Hlt). f_equal. apply IH. lia.
Qed.

(** [re.findall] returns the bodies of the fenced regions, and they are
    determined by the text. *)
Lemma findall_code_blocks (s : string) (bodies : list string) :
  fenced_regions python_tag s bodies <-> Re.findall code_block_pattern s = bodies.
Proof.
  split.
  - intros H. apply regions_findall; [done|lia].
  - intros <-. apply findall_regions. lia.
Qed.

(** ** The extraction loops *)

Lemma py_eq_str_from_agent (m : Message) (agent_name : string) :
  py_eq_str (dict_get m "source") agent_name = bool_decide (from_agent agent_name m).
Proof.
  case_bool_decide as H; unfold from_agent, dict_get in *.
  - rewrite H. simpl. by apply bool_decide_eq_true_2.
  - destruct (m !! "source") as [[]|]; simpl; try done.
    apply bool_decide_eq_false_2. congruence.
Qed.

Lemma all_text_PStr (l : list string) : all_text (PStr <$> l) = Some l.
Proof. induction l as [|x l IH]; [done|]. csimpl. by rewrite IH. Qed.

Lemma list_truthy_fmap {A B} (f : A -> B) (l : list A) :
  list_truthy (f <$> l) = list_truthy l.
Proof. by destruct l. Qed.

Lemma for_each_cons {A} (x : A) (l : list A) (body : A -> Extract unit) (fr : Frame) :
  for_each (x :: l) body fr =
  match body x fr with
  | (inl e, fr') => (inl e, fr')
  | (inr _, fr') => for_each l body fr'
  end.
Proof. reflexivity. Qed.

Lemma code_loop_body_run (agent_name : string) (m : Message) (fr : Frame) :
  code_loop_body agent_name m fr =
  if decide (from_agent agent_name m) then
    match re_findall code_block_pattern (content_of m) with
    | inl e => (inl e, fr)
    | inr blocks => (inr tt, mkFrame (messages fr) (local_list fr ++ (PStr <$> blocks)))
    end
  else (inr tt, fr).
Proof.
  unfold code_loop_body. rewrite py_eq_str_from_agent.
  destruct (decide (from_agent agent_name m)) as [Hm|Hm].
  - rewrite bool_decide_eq_true_2 by done.
    unfold bind, lift, dict_get_default, content_of.
    by destruct (re_findall _ _).
  - by rewrite bool_decide_eq_false_2 by done.
Qed.

Lemma review_loop_body_run (agent_name : string) (m : Message) (fr : Frame) :
  review_loop_body agent_name m fr =
  if decide (from_agent agent_name m)
  then (inr tt, mkFrame (messages fr) (local_list fr ++ [content_of m]))
  else (inr tt, fr).
Proof.
  unfold review_loop_body. rewrite py_eq_str_from_agent.
  destruct (decide (from_agent agent_name m)) as [Hm|Hm].
  - by rewrite bool_decide_eq_true_2 by done.
  - by rewrite bool_decide_eq_false_2 by done.
Qed.

Lemma code_loop (agent_name : string) (msgs : list Message) (fr : Frame) :
  match collect_code (content_of <$> filter (from_agent agent_name) msgs) with
  | inr blocks =>
      for_each msgs (code_loop_body agent_name) fr
      = (inr tt, mkFrame (messages fr) (local_list fr ++ (PStr <$> blocks)))
  | inl e => fst (for_each msgs (code_loop_body agent_name) fr) = inl e
  end.
Proof.
  revert fr. induction msgs as [|m msgs IH]; intros fr.
  - cbn. rewrite app_nil_r. by destruct fr.
  - rewrite filter_cons, for_each_cons, code_loop_body_run.
    destruct (decide (from_agent agent_name m)) as [Hm|Hm]; [|apply IH].
    rewrite fmap_cons. cbn [collect_code].
    destruct (re_findall code_block_pattern (content_of m)) as [e|blocks]; [done|].
    specialize (IH (mkFrame (messages fr) (local_list fr ++ (PStr <$> blocks)))).
    destruct (collect_code _) as [e|more]; [done|].
    rewrite IH. cbn [messages local_list]. by rewrite fmap_app, (assoc_L (++)).
Qed.

Lemma review_loop (agent_name : string) (msgs : list Message) (fr : Frame) :
  for_each msgs (review_loop_body agent_name) fr
  = (inr tt, mkFrame (messages fr)
       (local_list fr ++ (content_of <$> filter (from_agent agent_name) msgs))).
Proof.
  revert fr. induction msgs as [|m msgs IH]; intros fr.
  - cbn. rewrite app_nil_r. by destruct fr.
  - rewrite filter_cons, for_each_cons, review_loop_body_run.
    destruct (decide (from_agent agent_name m)) as [Hm|Hm]; [|apply IH].
    rewrite IH. cbn [messages local_list]. by rewrite fmap_cons, <- (assoc_L (++)).
Qed.

(** What a call of the code extraction returns, for any messages. *)
Lemma extractCode_values (msgs : list Message) (agent_name : string) :
  extractCode msgs agent_name =
  match collect_code (content_of <$> filter (from_agent agent_name) msgs) with
  | inl e => inl e
  | inr blocks => inr (joined_or "No code found" blocks)
  end.
Proof.
  unfold extractCode, _extract_code_from_messages.
  unfold bind at 1 2, new_list, read_messages. simpl.
  pose proof (code_loop agent_name msgs (mkFrame msgs [])) as H. simpl in H.
  unfold bind at 1.
  destruct (collect_code _) as [e|blocks].
  - destruct (for_each _ _ _) as [[e'|[]] fr']; simpl in H; by simplify_eq.
  - rewrite H. unfold bind, read_list. simpl.
    rewrite list_truthy_fmap. destruct blocks as [|b blocks]; [done|].
    simpl list_truthy. cbv iota. unfold lift, str_join.
    by rewrite all_text_PStr.
Qed.

(** What a call of the review extraction returns, for any messages. *)
Lemma extractReview_values (msgs : list Message) (agent_name : string) :
  extractReview msgs agent_name =
  let reviews := content_of <$> filter (from_agent agent_name) msgs in
  if list_truthy reviews then str_join (Str.nl +:+ Str.nl) reviews
  else inr "No review found".
Proof.
  unfold extractReview, _extract_review_from_messages.
  unfold bind at 1 2, new_list, read_messages. simpl.
  unfold bind at 1. rewrite review_loop. simpl.
  unfold bind, read_list. simpl.
  by destruct (list_truthy _).
Qed.

Lemma content_of_text (l : list Message) :
  Forall content_is_text l -> content_of <$> l = PStr <$> (text_of <$> l).
Proof.
  induction 1 as [|m l Hm _ IH]; [done|]. rewrite !fmap_cons, IH. f_equal.
  unfold content_is_text in Hm. unfold content_of, text_of.
  by destruct (m !! "content") as [[]|].
Qed.

Lemma collect_code_text (texts : list string) :
  collect_code (PStr <$> texts)
  = inr (concat (Re.findall code_block_pattern <$> texts)).
Proof.
  induction texts as [|t texts IH]; [done|].
  rewrite !fmap_cons. cbn [collect_code re_findall concat]. by rewrite IH.
Qed.

(** The fenced regions of each text of a list. *)
Lemma regions_of_texts (texts : list string) (blocks : list (list string)) :
  Forall2 (fenced_regions python_tag) texts blocks
  <-> blocks = Re.findall code_block_pattern <$> texts.
Proof.
  split.
  - induction 1 as [|t bs texts blocks Ht _ IH]; [done|].
    rewrite fmap_cons, <- IH. f_equal. symmetry. by apply findall_code_blocks.
  - intros ->. induction texts as [|t texts IH]; [constructor|].
    rewrite fmap_cons. constructor; [|done]. by apply findall_code_blocks.
Qed.

Lemma extractCode_text (msgs : list Message) (agent_name : string) :
  Forall content_is_text (filter (from_agent agent_name) msgs) ->
  extractCode msgs agent_name
  = inr (joined_or "No code found"
           (concat (Re.findall code_block_pattern <$> agent_texts msgs agent_name))).
Proof.
  intros H. rewrite extractCode_values, (content_of_text _ H).
  by rewrite collect_code_text.
Qed.

Lemma extractReview_text (msgs : list Message) (agent_name : string) :
  Forall content_is_text (filter (from_agent agent_name) msgs) ->
  extractReview msgs agent_name
  = inr (joined_or "No review found" (agent_texts msgs agent_name)).
Proof.
  intros H. rewrite extractReview_values, (content_of_text _ H). cbv zeta.
  rewrite list_truthy_fmap. unfold str_join. rewrite all_text_PStr.
  unfold agent_texts. by destruct (text_of <$> _).
Qed.

(** ** The artifact extractor: the claims *)

(** C4, as stated, does not hold: with any annotation accepted on the
    opening fence, a block annotated [js] is a fenced region of the
    writer's message, yet the extraction does not return its body. *)
Lemma extract_code_any_tag_counterexample :
  ~ (forall (msgs : list Message) (agent_name : string) (blocks : list (list string)),
        Forall content_is_text (filter (from_agent agent_name) msgs) ->
        Forall2 (fenced_regions any_tag) (agent_texts msgs agent_name) blocks ->
        extractCode msgs agent_name
        = inr (joined_or "No code found" (concat blocks))).
Proof.
  intros H.
  pose (text := fence +:+ "js" +:+ Str.nl +:+ "x" +:+ closing).
  pose (msgs := [ ({[ "source" := PStr "CodeWriter"; "content" := PStr text ]} : Message) ]).
  specialize (H msgs "CodeWriter" [["x"]]).
  assert (Hrun : extractCode msgs "CodeWriter" = inr "No code found")
    by (vm_compute; reflexivity).
  rewrite Hrun in H.
  assert (Hneq : @inr PyExn string "No code found"
                 <> inr (joined_or "No code found" (concat [["x"]])))
    by (vm_compute; discriminate).
  apply Hneq, H.
  - apply (bool_decide_unpack _). vm_compute. exact I.
  - replace (agent_texts msgs "CodeWriter") with [text] by (vm_compute; reflexivity).
    constructor; [|constructor].
    apply regions_block with (rest := ""); [|constructor].
    exists "js". split_and!.
    + reflexivity.
    + split; [reflexivity | exact I].
    + reflexivity.
Qed.

(** C4 (amended): for every transcript in which the agent's contents are
    text, the code extraction returns the bodies of the fenced regions of
    the agent's messages -- an opening fence annotated with [python] or
    with nothing, a line feed, the body, and the first following line feed
    and fence -- in transcript order, joined by a blank line; the regions
    are determined by the texts; with no region at all it returns
    "No code found". *)
Theorem extract_code_python_regions (msgs : list Message) (agent_name : string) :
  Forall content_is_text (filter (from_agent agent_name) msgs) ->
  exists blocks : list (list string),
    Forall2 (fenced_regions python_tag) (agent_texts msgs agent_name) blocks
    /\ (forall blocks',
          Forall2 (fenced_regions python_tag) (agent_texts msgs agent_name) blocks' ->
          blocks' = blocks)
    /\ extractCode msgs agent_name
       = inr (joined_or "No code found" (concat blocks)).
Proof.
  intros H.
  exists (Re.findall code_block_pattern <$> agent_texts msgs agent_name).
  split_and!.
  - by apply regions_of_texts.
  - intros blocks'. apply regions_of_texts.
  - by apply extractCode_text.
Qed.

(** C6: the review extraction returns the full text of every message of
    the agent, in transcript order, joined by a blank line -- one piece per
    message of the agent -- and "No review found" when the agent has no
    message. *)
Theorem extract_review_agent_texts (msgs : list Message) (agent_name : string) :
  Forall content_is_text (filter (from_agent agent_name) msgs) ->
  extractReview msgs agent_name
  = inr (joined_or "No review found"
           (text_of <$> filter (from_agent agent_name) msgs))
  /\ (filter (from_agent agent_name) msgs = [] ->
      extractReview msgs agent_name = inr "No review found").
Proof.
  intros H. rewrite (extractReview_text _ _ H). split; [done|].
  unfold agent_texts. by intros ->.
Qed.

(** Every step of an extraction leaves the [messages] list as it was. *)
Lemma bind_keeps {A B} (c : Extract A) (k : A -> Extract B) :
  (forall fr, messages (snd (c fr)) = messages fr) ->
  (forall a fr, messages (snd (k a fr)) = messages fr) ->
  forall fr, messages (snd (bind c k fr)) = messages fr.
Proof.
  intros Hc Hk fr. unfold bind. specialize (Hc fr).
  destruct (c fr) as [[e|a] fr']; cbn [snd] in *; [done|].
  by rewrite Hk.
Qed.

Lemma for_each_keeps {A} (l : list A) (body : A -> Extract unit) :
  (forall x fr, messages (snd (body x fr)) = messages fr) ->
  forall fr, messages (snd (for_each l body fr)) = messages fr.
Proof.
  intros Hbody. induction l as [|x l IH]; [done|].
  cbn [for_each]. apply bind_keeps; [apply Hbody | by intros _].
Qed.

Lemma code_loop_body_keeps (agent_name : string) (m : Message) (fr : Frame) :
  messages (snd (code_loop_body agent_name m fr)) = messages fr.
Proof.
  rewrite code_loop_body_run.
  destruct (decide _); [|done]. by destruct (re_findall _ _).
Qed.

Lemma review_loop_body_keeps (agent_name : string) (m : Message) (fr : Frame) :
  messages (snd (review_loop_body agent_name m fr)) = messages fr.
Proof. rewrite review_loop_body_run. by destruct (decide _). Qed.

Lemma extract_code_keeps_messages (agent_name : string) (fr : Frame) :
  messages (snd (_extract_code_from_messages agent_name fr)) = messages fr.
Proof.
  revert fr. unfold _extract_code_from_messages.
  apply bind_keeps; [done|intros _].
  apply bind_keeps; [done|intros msgs].
  apply bind_keeps; [apply for_each_keeps, code_loop_body_keeps|intros _].
  apply bind_keeps; [done|intros code_blocks].
  by destruct (list_truthy code_blocks).
Qed.

Lemma extract_review_keeps_messages (agent_name : string) (fr : Frame) :
  messages (snd (_extract_review_from_messages agent_name fr)) = messages fr.
Proof.
  revert fr. unfold _extract_review_from_messages.
  apply bind_keeps; [done|intros _].
  apply bind_keeps; [done|intros msgs].
  apply bind_keeps; [apply for_each_keeps, review_loop_body_keeps|intros _].
  apply bind_keeps; [done|intros reviews].
  by destruct (list_truthy reviews).
Qed.

(** An extraction starts from a fresh local list: what it does depends on
    the [messages] of the frame only. *)
Lemma extract_code_fresh (agent_name : string) (fr : Frame) :
  _extract_code_from_messages agent_name fr
  = _extract_code_from_messages agent_name (mkFrame (messages fr) []).
Proof. reflexivity. Qed.

Lemma extract_review_fresh (agent_name : string) (fr : Frame) :
  _extract_review_from_messages agent_name fr
  = _extract_review_from_messages agent_name (mkFrame (messages fr) []).
Proof. reflexivity. Qed.

(** C8: either extraction leaves the transcript it was given unchanged, and
    running it again on the frame it left behind returns the same result
    (value or exception) and leaves the same frame. *)
Theorem extraction_idempotent_and_pure (agent_name : string) (fr : Frame) :
  (messages (snd (_extract_code_from_messages agent_name fr)) = messages fr
   /\ _extract_code_from_messages agent_name
        (snd (_extract_code_from_messages agent_name fr))
      = _extract_code_from_messages agent_name fr)
  /\ (messages (snd (_extract_review_from_messages agent_name fr)) = messages fr
      /\ _extract_review_from_messages agent_name
           (snd (_extract_review_from_messages agent_name fr))
         = _extract_review_from_messages agent_name fr).
Proof.
  split; split.
  - apply extract_code_keeps_messages.
  - rewrite extract_code_fresh, extract_code_keeps_messages.
    symmetry. apply extract_code_fresh.
  - apply extract_review_keeps_messages.
  - rewrite extract_review_fresh, extract_review_keeps_messages.
    symmetry. apply extract_review_fresh.
Qed.

Lemma extract_code_python_regions_witness :
  exists blocks : list (list string),
    Forall2 (fenced_regions python_tag)
      (agent_texts sample_transcript "CodeOptimizer") blocks
    /\ (forall blocks',
          Forall2 (fenced_regions python_tag)
            (agent_texts sample_transcript "CodeOptimizer") blocks' ->
          blocks' = blocks)
    /\ extractCode sample_transcript "CodeOptimizer"
       = inr (joined_or "No code found" (concat blocks)).
Proof.
  apply (extract_code_python_regions sample_transcript "CodeOptimizer").
  apply (bool_decide_unpack _). vm_compute. exact I.
Defined.

Lemma extract_review_agent_texts_witness :
  extractReview sample_transcript "CodeReviewer"
  = inr (joined_or "No review found"
           (text_of <$> filter (from_agent "CodeReviewer") sample_transcript))
  /\ (filter (from_agent "CodeReviewer") sample_transcript = [] ->
      extractReview sample_transcript "CodeReviewer" = inr "No review found").
Proof.
  apply (extract_review_agent_texts sample_transcript "CodeReviewer").
  apply (bool_decide_unpack _). vm_compute. exact I.
Defined.

Lemma filter_skip (agent_name : string) (pre post : list Message) (m : Message) :
  ~ from_agent agent_name m ->
  filter (from_agent agent_name) (pre ++ m :: post)
  = filter (from_agent agent_name) (pre ++ post).
Proof. intros H. by rewrite !filter_app, filter_cons_False. Qed.

Lemma from_agent_set_content (agent_name : string) (m : Message) (v : PyVal) :
  from_agent agent_name (<["content" := v]> m) <-> from_agent agent_name m.
Proof. unfold from_agent. by rewrite lookup_insert_ne. Qed.

Lemma values_default_content (agent_name : string) (pre post : list Message)
    (m : Message) :
  m !! "content" = None ->
  content_of <$> filter (from_agent agent_name)
                   (pre ++ <["content" := PStr ""]> m :: post)
  = content_of <$> filter (from_agent agent_name) (pre ++ m :: post).
Proof.
  intros H. rewrite !filter_app, !fmap_app. f_equal.
  rewrite !filter_cons.
  destruct (decide (from_agent agent_name m)) as [Hm|Hm].
  - rewrite decide_True by by apply from_agent_set_content.
    rewrite !fmap_cons. f_equal.
    unfold content_of. by rewrite lookup_insert_eq, H.
  - rewrite decide_False; [done|]. by rewrite from_agent_set_content.
Qed.

(** C9, as stated, does not hold: a message of the agent whose content is
    [None] makes the code extraction raise, in [re.findall], and the
    review extraction too, in [str.join]. *)
Lemma extraction_total_counterexample :
  ~ (forall (msgs : list Message) (agent_name : string),
       (exists code, extractCode msgs agent_name = inr code)
       /\ (exists review, extractReview msgs agent_name = inr review)).
Proof.
  intros H.
  destruct (H [ {[ "source" := PStr "CodeWriter"; "content" := PNone ]} ] "CodeWriter")
    as [[code Hcode] _].
  vm_compute in Hcode. discriminate.
Qed.

(** C9 (amended): on message records whose content, when present, is text,
    neither extraction raises; a record without a source is skipped, and
    a record without a content counts as one with empty content. *)
Theorem extraction_total_on_missing_keys (msgs : list Message) (agent_name : string) :
  (Forall content_is_text (filter (from_agent agent_name) msgs) ->
   (exists code, extractCode msgs agent_name = inr code)
   /\ (exists review, extractReview msgs agent_name = inr review))
  /\ (forall pre m post,
        msgs = pre ++ m :: post -> m !! "source" = None ->
        extractCode msgs agent_name = extractCode (pre ++ post) agent_name
        /\ extractReview msgs agent_name = extractReview (pre ++ post) agent_name)
  /\ (forall pre m post,
        msgs = pre ++ m :: post -> m !! "content" = None ->
        extractCode msgs agent_name
        = extractCode (pre ++ <["content" := PStr ""]> m :: post) agent_name
        /\ extractReview msgs agent_name
           = extractReview (pre ++ <["content" := PStr ""]> m :: post) agent_name).
Proof.
  split_and!.
  - intros H. split; eexists.
    + by apply extractCode_text.
    + by apply extractReview_text.
  - intros pre m post -> Hm.
    assert (~ from_agent agent_name m) as Hno by (unfold from_agent; congruence).
    rewrite !extractCode_values, !extractReview_values. cbv zeta.
    by rewrite (filter_skip _ _ _ _ Hno).
  - intros pre m post -> Hm.
    rewrite !extractCode_values, !extractReview_values. cbv zeta.
    by rewrite (values_default_content _ _ _ _ Hm).
Qed.

Lemma extraction_total_on_missing_keys_witness :
  ((exists code, extractCode sample_transcript "CodeReviewer" = inr code)
   /\ (exists review, extractReview sample_transcript "CodeReviewer" = inr review))
  /\ extractReview sample_transcript "CodeReviewer"
     = extractReview (take 4 sample_transcript ++ drop 5 sample_transcript)
         "CodeReviewer"
  /\ extractReview sample_transcript "CodeReviewer"
     = extractReview
         (take 5 sample_transcript
          ++ [ <["content" := PStr ""]> {[ "source" := PStr "CodeReviewer" ]} ])
         "CodeReviewer".
Proof.
  destruct (extraction_total_on_missing_keys sample_transcript "CodeReviewer")
    as (Htotal & Hskip & Hdefault).
  split; [|split].
  - apply Htotal. apply (bool_decide_unpack _). vm_compute. exact I.
  - apply (Hskip (take 4 sample_transcript) {[ "content" := PStr "stray" ]}
             (drop 5 sample_transcript)); reflexivity.
  - apply (Hdefault (take 5 sample_transcript) {[ "source" := PStr "CodeReviewer" ]} []);
      reflexivity.
Defined.

(** ** Construction *)

Lemma opt_truthy_false (o : option string) : opt_truthy o = false <-> absent o.
Proof.
  unfold absent. destruct o as [[|c s]|]; simpl; split; intros H; auto.
  - discriminate.
  - destruct H; discriminate.
Qed.

Lemma opt_truthy_true (o : option string) :
  opt_truthy o = true <-> exists k, o = Some k /\ k <> "".
Proof.
  destruct o as [[|c s]|]; simpl; split; intros H; auto; try discriminate.
  - destruct H as (k & [= <-] & Hk). done.
  - by exists (String c s).
  - destruct H as (k & [=] & _).
Qed.

Section Construction.

Variable new_model_client : string -> Q -> PyExn + OpenAIChatCompletionClient.
Variable model : string.
Variable temperature : Q.
Variable N : Z.

Local Abbreviation init := (__init__ new_model_client model temperature N).

Lemma set_environ_key (k : string) (w : World) :
  set_environ "OPENAI_API_KEY" k w =
  if Str.contains nul k then inl nul_error else inr (with_key k w).
Proof.
  unfold set_environ.
  change (Str.contains nul "OPENAI_API_KEY") with false.
  change (negb (Str.truthy "OPENAI_API_KEY") || Str.contains "=" "OPENAI_API_KEY")
    with false.
  by destruct (Str.contains nul k).
Qed.

(** Construction fails when neither key counts, with the key error and the
    process untouched. *)
Lemma init_fails (api_key : option string) (w : World) :
  opt_truthy api_key = false ->
  opt_truthy (getenv "OPENAI_API_KEY" w) = false ->
  init api_key w = (inl api_key_error, w).
Proof. intros H1 H2. unfold __init__. by rewrite H1, H2. Qed.

(** A key with a NUL character is refused by the environment. *)
Lemma init_nul (k : string) (w : World) :
  k <> "" -> Str.contains nul k = true ->
  init (Some k) w = (inl nul_error, w).
Proof.
  intros Hk Hn. unfold __init__.
  assert (opt_truthy (Some k) = true) as -> by (by destruct k).
  cbn [default from_option id]. by rewrite set_environ_key, Hn.
Qed.

(** What follows the key step: the client constructor decides. *)
Lemma init_after_key (api_key : option string) (w w1 : World) :
  (if opt_truthy api_key
   then set_environ "OPENAI_API_KEY" (default "" api_key) w
   else if negb (opt_truthy (getenv "OPENAI_API_KEY" w)) then inl api_key_error
        else inr w) = inr w1 ->
  match new_model_client model temperature with
  | inl e => init api_key w = (inl e, w1)
  | inr c =>
      exists wf w',
        init api_key w = (inr wf, w')
        /\ max_rounds wf = N
        /\ termination_condition wf
           = OrTermination (MaxMessageTermination N)
                           (TextMentionTermination "WORKFLOW_COMPLETE")
        /\ agent_names wf = ["CodeWriter"; "CodeReviewer"; "CodeOptimizer"]
        /\ self_model_client wf = c
        /\ environ w' = environ w1
        /\ stdout w' = stdout w1
        /\ wall_clock w' = wall_clock w1
        /\ trace w' = trace w1 ++ construction_events
  end.
Proof.
  intros Hkey. unfold __init__. rewrite Hkey.
  destruct (new_model_client model temperature) as [e|c]; [done|].
  eexists _, _. split; [reflexivity|]. cbn.
  split_and!; try done. by rewrite <- !(assoc_L (++)).
Qed.

Lemma key_step_parameter (k : string) (w : World) :
  usable k ->
  (if opt_truthy (Some k)
   then set_environ "OPENAI_API_KEY" (default "" (Some k)) w
   else if negb (opt_truthy (getenv "OPENAI_API_KEY" w)) then inl api_key_error
        else inr w) = inr (with_key k w).
Proof.
  intros [Hk Hn].
  assert (opt_truthy (Some k) = true) as -> by (by destruct k).
  cbn [default from_option id]. by rewrite set_environ_key, Hn.
Qed.

Lemma key_step_environment (api_key : option string) (w : World) :
  opt_truthy api_key = false ->
  opt_truthy (getenv "OPENAI_API_KEY" w) = true ->
  (if opt_truthy api_key
   then set_environ "OPENAI_API_KEY" (default "" api_key) w
   else if negb (opt_truthy (getenv "OPENAI_API_KEY" w)) then inl api_key_error
        else inr w) = inr w.
Proof. intros -> ->. done. Qed.

(** The four situations of the key. *)
Lemma init_cases (api_key : option string) (w : World) :
  (exists k, api_key = Some k /\ usable k)
  \/ (exists k, api_key = Some k /\ k <> "" /\ Str.contains nul k = true)
  \/ (absent api_key /\ opt_truthy (getenv "OPENAI_API_KEY" w) = true)
  \/ (absent api_key /\ absent (getenv "OPENAI_API_KEY" w)).
Proof.
  destruct (opt_truthy api_key) eqn:E1.
  - apply opt_truthy_true in E1 as (k & -> & Hk).
    destruct (Str.contains nul k) eqn:En.
    + right; left. by exists k.
    + left. by exists k.
  - apply opt_truthy_false in E1.
    destruct (opt_truthy (getenv "OPENAI_API_KEY" w)) eqn:E2.
    + right; right; left. done.
    + right; right; right. split; [done | by apply opt_truthy_false].
Qed.


(** A workflow that was constructed has the configuration of the source,
    and a key was at hand. *)
Lemma init_configuration (api_key : option string) (w w' : World)
    (wf : CodeDevelopmentWorkflow) :
  init api_key w = (inr wf, w') ->
  max_rounds wf = N
  /\ termination_condition wf
     = OrTermination (MaxMessageTermination N)
                     (TextMentionTermination "WORKFLOW_COMPLETE")
  /\ agent_names wf = ["CodeWriter"; "CodeReviewer"; "CodeOptimizer"]
  /\ key_at_hand api_key w
  /\ new_model_client model temperature = inr (self_model_client wf).
Proof.
  intros H.
  destruct (init_cases api_key w)
    as [(k & -> & Hk) | [(k & -> & Hk & Hn) | [[Ha He] | [Ha He]]]].
  - pose proof (init_after_key _ _ _ (key_step_parameter k w Hk)) as Hc.
    destruct (new_model_client model temperature) as [e|c].
    + rewrite Hc in H. done.
    + destruct Hc as (wf0 & w0 & E & ? & ? & ? & ? & _). rewrite E in H.
      simplify_eq. split_and!; [done|done|done| |congruence]. left. by exists k.
  - by rewrite (init_nul k w Hk Hn) in H.
  - pose proof Ha as Ha'. apply opt_truthy_false in Ha'.
    pose proof (init_after_key _ _ _ (key_step_environment api_key w Ha' He)) as Hc.
    destruct (new_model_client model temperature) as [e|c].
    + rewrite Hc in H. done.
    + destruct Hc as (wf0 & w0 & E & ? & ? & ? & ? & _). rewrite E in H.
      simplify_eq. split_and!; [done|done|done| |congruence]. by right.
  - apply opt_truthy_false in Ha, He. by rewrite (init_fails _ _ Ha He) in H.
Qed.


End Construction.








(** ** Running the workflow *)

(** C7: when the awaited team run raises, [run] ends with that very
    exception -- the [except] clause reports it when verbose and re-raises
    it -- and returns no workflow result. *)
Theorem run_propagates_failure
    (team_run console_run_stream :
       RoundRobinGroupChat -> string -> TerminationCondition -> Await TaskResult)
    (clock_after : World -> Z)
    (self : CodeDevelopmentWorkflow) (task : string) (verbose : bool)
    (w w1 : World) (e : PyExn) :
  (if verbose then console_run_stream else team_run)
    (team_of self) task (termination_condition self) (announce self task verbose w)
  = Some (inl e, w1) ->
  run team_run console_run_stream clock_after self task verbose w
  = Some (inl e,
          if verbose && is_Exception e
          then print (Text (Str.nl +:+ "❌ Error during workflow execution: "
                            +:+ exn_str e)) w1
          else w1)
  /\ (forall result w2,
        run team_run console_run_stream clock_after self task verbose w
        <> Some (inr result, w2)).
Proof.
  intros H.
  assert (run team_run console_run_stream clock_after self task verbose w
          = Some (except_clause verbose e w1)) as ->.
  { unfold run. destruct verbose; by rewrite H. }
  unfold except_clause.
  destruct (is_Exception e), verbose; by split.
Qed.

Lemma run_propagates_failure_witness :
  run (failing_team (OtherException "RuntimeError" "quota"))
      (failing_team (OtherException "RuntimeError" "quota"))
      late_clock sample_workflow "Write add" false empty_world
  = Some (inl (OtherException "RuntimeError" "quota"), empty_world)
  /\ (forall result w2,
        run (failing_team (OtherException "RuntimeError" "quota"))
            (failing_team (OtherException "RuntimeError" "quota"))
            late_clock sample_workflow "Write add" false empty_world
        <> Some (inr result, w2)).
Proof.
  apply (run_propagates_failure
           (failing_team (OtherException "RuntimeError" "quota"))
           (failing_team (OtherException "RuntimeError" "quota"))
           late_clock sample_workflow "Write add" false empty_world empty_world).
  reflexivity.
Defined.

(** ** The conversation engine *)

Section EngineFacts.

Variable client : Scheduler.CompletionClient.
Variable agents : list AssistantAgent.
Variable limit : Z.
Variable phrase : string.

Local Abbreviation cond :=
  (OrTermination (MaxMessageTermination limit) (TextMentionTermination phrase)).

Lemma terminated_after (tr : Scheduler.Transcript) (m : Scheduler.SMessage) (n : nat) :
  Scheduler.terminated cond (tr ++ [m]) n
  = (limit <=? Z.of_nat n) || Str.contains phrase (Scheduler.content m).
Proof. cbn. by rewrite last_snoc. Qed.

Lemma turns_stopped (fuel : nat) (st : Scheduler.State) :
  (forall tr n, st <> Scheduler.Running tr n) ->
  Scheduler.turns client agents cond fuel st = st.
Proof.
  intros H. induction fuel as [|fuel IH]; [done|].
  cbn [Scheduler.turns].
  replace (Scheduler.turn client agents cond st) with st; [done|].
  destruct st; try done. by destruct (H tr turnCount).
Qed.

Lemma turns_add (a b : nat) (st : Scheduler.State) :
  Scheduler.turns client agents cond (a + b) st
  = Scheduler.turns client agents cond b (Scheduler.turns client agents cond a st).
Proof. revert st. induction a as [|a IH]; intros st; [done|]. apply IH. Qed.

Lemma cyclic_order_snoc (msgs : Scheduler.Transcript) (m : Scheduler.SMessage)
    (a : AssistantAgent) :
  cyclic_order agents msgs ->
  agents !! (length msgs mod length agents)%nat = Some a ->
  Scheduler.source m = name a ->
  cyclic_order agents (msgs ++ [m]).
Proof.
  intros Hc Ha Hm i m' Hi.
  destruct (decide (i < length msgs)%nat) as [Hlt|Hge].
  - rewrite lookup_app_l in Hi by done. by apply Hc.
  - rewrite lookup_app_r in Hi by lia.
    destruct (i - length msgs)%nat as [|k] eqn:E; [|done].
    cbn in Hi. simplify_eq.
    replace i with (length msgs) by lia. by rewrite Ha, Hm.
Qed.

Lemma tail_snoc {A} (l : list A) (x : A) :
  l <> [] -> tail (l ++ [x]) = tail l ++ [x].
Proof. by destruct l. Qed.

Lemma length_tail_S {A} (l : list A) (n : nat) :
  length l = S n -> length (tail l) = n.
Proof. destruct l; simpl; lia. Qed.

Lemma mentioned_last_snoc (msgs : Scheduler.Transcript) (m : Scheduler.SMessage) :
  unmentioned phrase msgs -> mentioned_last phrase (msgs ++ [m]).
Proof.
  intros Hu i m' Hi Hs. rewrite length_app. cbn.
  destruct (decide (i < length msgs)%nat) as [Hlt|Hge].
  - rewrite lookup_app_l in Hi by done.
    apply list_elem_of_lookup_2, Hu in Hi. congruence.
  - apply lookup_lt_Some in Hi. rewrite length_app in Hi. cbn in Hi. lia.
Qed.

Lemma unmentioned_snoc (msgs : Scheduler.Transcript) (m : Scheduler.SMessage) :
  unmentioned phrase msgs ->
  Str.contains phrase (Scheduler.content m) = false ->
  unmentioned phrase (msgs ++ [m]).
Proof.
  intros Hu Hm m' [Hin | ->%list_elem_of_singleton]%elem_of_app; [by apply Hu|done].
Qed.

Lemma unmentioned_mentioned_last (msgs : Scheduler.Transcript) :
  unmentioned phrase msgs -> mentioned_last phrase msgs.
Proof. intros Hu i m Hi Hs. apply list_elem_of_lookup_2, Hu in Hi. congruence. Qed.

Lemma turn_inv (st : Scheduler.State) :
  engine_inv agents limit phrase st ->
  engine_inv agents limit phrase (Scheduler.turn client agents cond st).
Proof.
  destruct st as [|tr n|tr|f tr]; try done.
  intros (Hlen & Hc & Hu & Hn). cbn [Scheduler.turn].
  destruct (agents !! (n mod length agents)%nat) as [a|] eqn:Ha; [|done].
  unfold Scheduler.produce.
  destruct (client tr (system_message a)) as [f|text]; [done|].
  set (m := Scheduler.mkSMessage (name a) text (length tr)).
  assert (tr <> []) as Hne by (by destruct tr).
  assert (length (tail tr) = n) as Htl by by apply length_tail_S.
  assert (cyclic_order agents (tail (tr ++ [m]))) as Hc'.
  { rewrite tail_snoc by done.
    eapply cyclic_order_snoc; [done| by rewrite Htl |done]. }
  assert (length (tail (tr ++ [m])) = S n) as Htl'.
  { rewrite tail_snoc, length_app by done. cbn. lia. }
  rewrite terminated_after.
  destruct (Str.contains phrase (Scheduler.content m)) eqn:Hs.
  - rewrite orb_true_r. cbn [engine_inv]. split_and!.
    + by destruct tr.
    + done.
    + rewrite tail_snoc by done. by apply mentioned_last_snoc.
    + rewrite Htl'. destruct Hn as [->|Hn]; [by left|right; lia].
  - rewrite orb_false_r.
    assert (unmentioned phrase (tail (tr ++ [m]))) as Hu'.
    { rewrite tail_snoc by done. by apply unmentioned_snoc. }
    destruct (limit <=? Z.of_nat (S n)) eqn:Hlim; cbn [engine_inv].
    + split_and!.
      * by destruct tr.
      * done.
      * by apply unmentioned_mentioned_last.
      * rewrite Htl'. destruct Hn as [->|Hn]; [by left|right; lia].
    + apply Z.leb_gt in Hlim. split_and!.
      * rewrite length_app. cbn. lia.
      * done.
      * done.
      * right. lia.
Qed.

Lemma turns_inv (fuel : nat) (st : Scheduler.State) :
  engine_inv agents limit phrase st ->
  engine_inv agents limit phrase (Scheduler.turns client agents cond fuel st).
Proof.
  revert st. induction fuel as [|fuel IH]; intros st H; [done|].
  cbn [Scheduler.turns]. by apply IH, turn_inv.
Qed.

(** Every state of a run satisfies the invariant. *)
Lemma run_team_inv (fuel : nat) (task : string) :
  engine_inv agents limit phrase (Scheduler.run_team client agents cond fuel task).
Proof.
  apply turns_inv. cbn. split_and!; [done| | |by left].
  - by intros i m Hi.
  - by intros m Hm%elem_of_nil.
Qed.

(** A run that has stopped stays as it is, whatever fuel is added. *)
Lemma run_team_stable (fuel fuel' : nat) (task : string) :
  (forall tr n, Scheduler.run_team client agents cond fuel task
                <> Scheduler.Running tr n) ->
  (fuel <= fuel')%nat ->
  Scheduler.run_team client agents cond fuel' task
  = Scheduler.run_team client agents cond fuel task.
Proof.
  intros Hstop Hle. unfold Scheduler.run_team in *.
  replace fuel' with (fuel + (fuel' - fuel))%nat by lia.
  rewrite turns_add. by apply turns_stopped.
Qed.

Lemma turns_S (fuel : nat) (st : Scheduler.State) :
  Scheduler.turns client agents cond (S fuel) st
  = Scheduler.turn client agents cond (Scheduler.turns client agents cond fuel st).
Proof. replace (S fuel) with (fuel + 1)%nat by lia. by rewrite turns_add. Qed.

(** The turn after a state that is going on: the counter and the content
    of the message just appended decide, nothing else of the transcript. *)
Lemma run_team_next (fuel : nat) (task : string) (tr : Scheduler.Transcript)
    (n : nat) (a : AssistantAgent) (text : string) :
  Scheduler.run_team client agents cond fuel task = Scheduler.Running tr n ->
  agents !! (n mod length agents)%nat = Some a ->
  client tr (system_message a) = inr text ->
  Scheduler.run_team client agents cond (S fuel) task
  = if (limit <=? Z.of_nat (S n)) || Str.contains phrase text
    then Scheduler.Completed (tr ++ [Scheduler.mkSMessage (name a) text (length tr)])
    else Scheduler.Running (tr ++ [Scheduler.mkSMessage (name a) text (length tr)])
           (S n).
Proof.
  unfold Scheduler.run_team. intros E Ha Hc.
  rewrite turns_S, E. cbn [Scheduler.turn]. rewrite Ha.
  unfold Scheduler.produce. rewrite Hc. by rewrite terminated_after.
Qed.

(** A run that has completed stopped on its last message: that message
    mentions the phrase, or the limit was reached with it. *)
Lemma run_team_completed_last (fuel : nat) (task : string)
    (tr : Scheduler.Transcript) :
  Scheduler.run_team client agents cond fuel task = Scheduler.Completed tr ->
  exists m,
    last (tail tr) = Some m
    /\ (Str.contains phrase (Scheduler.content m) = true
        \/ limit <= Z.of_nat (length (tail tr))).
Proof.
  revert tr. induction fuel as [|fuel IH]; intros tr; [done|].
  pose proof (run_team_inv fuel task) as Hinv.
  unfold Scheduler.run_team in *. rewrite turns_S.
  destruct (Scheduler.turns client agents cond fuel (Scheduler.start task))
    as [|tr0 n|tr0|f tr0]; cbn [Scheduler.turn]; [done| |intros [= <-]; by apply IH|done].
  destruct Hinv as (Hlen & _).
  destruct (agents !! (n mod length agents)%nat) as [a|]; [|done].
  unfold Scheduler.produce.
  destruct (client tr0 (system_message a)) as [f|text]; [done|].
  rewrite terminated_after. cbn [Scheduler.content].
  destruct ((limit <=? Z.of_nat (S n)) || Str.contains phrase text) eqn:Hstop; [|done].
  intros [= <-].
  assert (tr0 <> []) as Hne by (by destruct tr0).
  rewrite tail_snoc by done.
  eexists. split; [by rewrite last_snoc|]. cbn [Scheduler.content].
  apply orb_true_iff in Hstop as [Hl%Z.leb_le | Hs]; [right|by left].
  rewrite length_app. cbn [length]. destruct tr0; [done|]. cbn in *. lia.
Qed.

(** A client that always answers and never mentions the phrase. *)
Hypothesis agents_nonempty : agents <> [].
Hypothesis client_quiet :
  forall tr directive,
    exists text, client tr directive = inr text /\ Str.contains phrase text = false.

Lemma select_agent (n : nat) :
  exists a, agents !! (n mod length agents)%nat = Some a.
Proof.
  apply lookup_lt_is_Some_2, Nat.mod_upper_bound.
  destruct agents; [done|cbn; lia].
Qed.

Lemma head_snoc {A} (l : list A) (x : A) : l <> [] -> head (l ++ [x]) = head l.
Proof. by destruct l. Qed.

Lemma turns_to_limit (k : nat) (tr : Scheduler.Transcript) (n : nat) :
  length tr = S n ->
  Z.of_nat (n + S k) = limit ->
  exists tr',
    Scheduler.turns client agents cond (S k) (Scheduler.Running tr n)
    = Scheduler.Completed tr'
    /\ length tr' = S (n + S k)
    /\ head tr' = head tr.
Proof.
  revert tr n. induction k as [|k IH]; intros tr n Hlen Hlim.
  all: cbn [Scheduler.turns Scheduler.turn].
  all: destruct (select_agent n) as [a ->].
  all: unfold Scheduler.produce.
  all: destruct (client_quiet tr (system_message a)) as (text & -> & Hq).
  all: rewrite terminated_after; cbn [Scheduler.content]; rewrite Hq, orb_false_r.
  all: assert (tr <> []) as Hne by (by destruct tr).
  - rewrite (proj2 (Z.leb_le _ _)) by lia.
    eexists. split_and!; [done| |by apply head_snoc].
    rewrite length_app. cbn. lia.
  - rewrite (proj2 (Z.leb_gt _ _)) by lia.
    edestruct (IH (tr ++ [Scheduler.mkSMessage (name a) text (length tr)]) (S n))
      as (tr' & E & Hlen' & Hhd).
    { rewrite length_app. cbn. lia. }
    { lia. }
    exists tr'. split_and!; [exact E | lia |].
    by rewrite Hhd, head_snoc.
Qed.

(** With a positive limit and a quiet client the run completes with
    exactly [limit] produced messages after the seed. *)
Lemma run_team_to_limit (fuel : nat) (task : string) :
  1 <= limit ->
  (Z.to_nat limit <= fuel)%nat ->
  exists tr,
    Scheduler.run_team client agents cond fuel task = Scheduler.Completed tr
    /\ length (tail tr) = Z.to_nat limit
    /\ head tr = Some (Scheduler.seed task).
Proof.
  intros Hpos Hfuel.
  destruct (turns_to_limit (Z.to_nat limit - 1) [Scheduler.seed task] 0)
    as (tr & E & Hlen & Hhd); [done|lia|].
  replace (S (Z.to_nat limit - 1)) with (Z.to_nat limit) in E by lia.
  exists tr. split_and!.
  - rewrite (run_team_stable (Z.to_nat limit)); [done| |done].
    unfold Scheduler.run_team, Scheduler.start. by rewrite E.
  - apply length_tail_S. rewrite Hlen. lia.
  - done.
Qed.

End EngineFacts.

(** ** The workflow on the conversation engine *)

Lemma as_dict_text (m : Scheduler.SMessage) : content_is_text (Scheduler.as_dict m).
Proof.
  unfold content_is_text, Scheduler.as_dict.
  rewrite lookup_insert_ne by done. by rewrite lookup_singleton_eq.
Qed.

Lemma transcript_text (tr : Scheduler.Transcript) (agent_name : string) :
  Forall content_is_text (filter (from_agent agent_name) (Scheduler.as_dict <$> tr)).
Proof.
  apply Forall_forall. intros m [_ Hm]%list_elem_of_filter.
  apply list_elem_of_fmap in Hm as (sm & -> & _). apply as_dict_text.
Qed.

(** On text messages the three extractions succeed and the result holds
    the very list of messages it was given. *)
Lemma build_result_text (clock_after : World -> Z) (task : string)
    (msgs : list Message)
    (usage : option (gmap string Z)) (start_time : Z) (w : World) :
  (forall agent_name, Forall content_is_text (filter (from_agent agent_name) msgs)) ->
  exists result,
    build_result clock_after task (mkTaskResult (Some msgs) usage) start_time w
    = inr result
    /\ conversation_history result = msgs
    /\ original_task result = task.
Proof.
  intros Htext. unfold build_result. cbn [result_messages default].
  pose proof (extractCode_text msgs "CodeWriter" (Htext _)) as H1.
  pose proof (extract_code_keeps_messages "CodeWriter" (mkFrame msgs [])) as K1.
  unfold extractCode in H1.
  destruct (_extract_code_from_messages "CodeWriter" _) as [r1 fr1].
  cbn in H1, K1. subst r1. rewrite K1.
  pose proof (extractReview_text msgs "CodeReviewer" (Htext _)) as H2.
  pose proof (extract_review_keeps_messages "CodeReviewer" (mkFrame msgs [])) as K2.
  unfold extractReview in H2.
  destruct (_extract_review_from_messages "CodeReviewer" _) as [r2 fr2].
  cbn in H2, K2. subst r2. rewrite K2.
  pose proof (extractCode_text msgs "CodeOptimizer" (Htext _)) as H3.
  pose proof (extract_code_keeps_messages "CodeOptimizer" (mkFrame msgs [])) as K3.
  unfold extractCode in H3.
  destruct (_extract_code_from_messages "CodeOptimizer" _) as [r3 fr3].
  cbn in H3, K3. subst r3. rewrite K3.
  eexists. split_and!; reflexivity.
Qed.

(** A completed team run makes [run] return a result with the transcript
    of the team as its conversation history. *)
Lemma run_on_completed (client : Scheduler.CompletionClient) (fuel : nat)
    (clock_after : World -> Z)
    (self : CodeDevelopmentWorkflow) (task : string) (verbose : bool)
    (w : World) (tr : Scheduler.Transcript) :
  Scheduler.run_team client (participants (team_of self))
    (termination_condition self) fuel task = Scheduler.Completed tr ->
  exists result w',
    run (Scheduler.team_run client fuel) (Scheduler.team_run client fuel)
      clock_after self task verbose w = Some (inr result, w')
    /\ conversation_history result = Scheduler.as_dict <$> tr.
Proof.
  intros E.
  destruct (build_result_text clock_after task (Scheduler.as_dict <$> tr) None
              (wall_clock w) (announce self task verbose w))
    as (result & Hres & Hhist & _); [intros; apply transcript_text|].
  unfold run.
  assert ((if verbose
           then Scheduler.team_run client fuel (team_of self) task
                  (termination_condition self) (announce self task verbose w)
           else Scheduler.team_run client fuel (team_of self) task
                  (termination_condition self) (announce self task verbose w))
          = Some (inr (mkTaskResult (Some (Scheduler.as_dict <$> tr)) None),
                  announce self task verbose w)) as ->.
  { unfold Scheduler.team_run. rewrite E. by destruct verbose. }
  rewrite Hres. by eexists _, _.
Qed.

(** The configuration [run] hands to the team for a constructed workflow. *)
Lemma init_team
    (new_model_client : string -> Q -> PyExn + OpenAIChatCompletionClient)
    (model : string) (temperature : Q) (N : Z)
    (api_key : option string) (w w' : World) (wf : CodeDevelopmentWorkflow) :
  __init__ new_model_client model temperature N api_key w = (inr wf, w') ->
  termination_condition wf
  = OrTermination (MaxMessageTermination N)
                  (TextMentionTermination "WORKFLOW_COMPLETE")
  /\ participants (team_of wf) <> []
  /\ name <$> participants (team_of wf)
     = ["CodeWriter"; "CodeReviewer"; "CodeOptimizer"].
Proof.
  intros (_ & Hc & Hn & _)%init_configuration. by split_and!.
Qed.

(** C1: for a workflow constructed with [max_rounds = N], [N] positive, and
    a completion client that always answers and never mentions the
    sentinel, the team run completes with exactly [N] messages after the
    seed task message, and [run] returns a result whose conversation
    history is that transcript. *)
Theorem max_rounds_messages (client : Scheduler.CompletionClient)
    (new_model_client : string -> Q -> PyExn + OpenAIChatCompletionClient)
    (clock_after : World -> Z)
    (model : string) (temperature : Q) (N : Z) (api_key : option string)
    (w w' : World) (wf : CodeDevelopmentWorkflow)
    (task : string) (verbose : bool) (w1 : World) (fuel : nat) :
  __init__ new_model_client model temperature N api_key w = (inr wf, w') ->
  1 <= N ->
  (forall tr directive,
     exists text,
       client tr directive = inr text
       /\ Str.contains "WORKFLOW_COMPLETE" text = false) ->
  (Z.to_nat N <= fuel)%nat ->
  exists tr result w2,
    Scheduler.run_team client (participants (team_of wf))
      (termination_condition wf) fuel task = Scheduler.Completed tr
    /\ head tr = Some (Scheduler.seed task)
    /\ length (Scheduler.produced (Scheduler.Completed tr)) = Z.to_nat N
    /\ run (Scheduler.team_run client fuel) (Scheduler.team_run client fuel)
         clock_after wf task verbose w1 = Some (inr result, w2)
    /\ conversation_history result = Scheduler.as_dict <$> tr
    /\ length (conversation_history result) = S (Z.to_nat N).
Proof.
  intros Hinit Hpos Hquiet Hfuel.
  destruct (init_team _ _ _ _ _ _ _ _ Hinit) as (Hcond & Hne & _).
  destruct (run_team_to_limit client (participants (team_of wf)) N
              "WORKFLOW_COMPLETE" Hne Hquiet fuel task Hpos Hfuel)
    as (tr & E & Hlen & Hhd).
  rewrite <- Hcond in E.
  destruct (run_on_completed client fuel clock_after wf task verbose w1 tr E)
    as (result & w2 & Hrun & Hhist).
  exists tr, result, w2. split_and!; try done.
  rewrite Hhist, length_fmap. destruct tr; [done|]. cbn in *. lia.
Qed.

Lemma max_rounds_messages_witness :
  exists tr result w2,
    Scheduler.run_team quiet_client (participants (team_of sample_workflow))
      (termination_condition sample_workflow) 10 "Write add"
    = Scheduler.Completed tr
    /\ head tr = Some (Scheduler.seed "Write add")
    /\ length (Scheduler.produced (Scheduler.Completed tr)) = Z.to_nat 10
    /\ run (Scheduler.team_run quiet_client 10) (Scheduler.team_run quiet_client 10)
         late_clock sample_workflow "Write add" false empty_world
       = Some (inr result, w2)
    /\ conversation_history result = Scheduler.as_dict <$> tr
    /\ length (conversation_history result) = S (Z.to_nat 10).
Proof.
  apply (max_rounds_messages quiet_client any_model_client late_clock
           default_model default_temperature
           10 (Some "sk-test") empty_world
           (snd (__init__ any_model_client default_model default_temperature 10
                   (Some "sk-test") empty_world))).
  - reflexivity.
  - lia.
  - intros tr directive. exists "Working on it.". split; reflexivity.
  - vm_compute. lia.
Defined.

(** C2: whenever the message produced on turn [i + 1] mentions
    "WORKFLOW_COMPLETE", the run has completed with exactly [i + 1]
    produced messages -- within the limit, unless it is the first -- and
    no further turn changes it: no later message is ever produced.  The
    phrase is looked for in the most recently appended message only: the
    turn after a transcript [tr] stops or goes on by the limit and the
    content of the message it has just appended, whatever [tr] and the
    task text hold, and a run that has completed below the limit has the
    phrase in its last message. *)
Theorem sentinel_stops_run (client : Scheduler.CompletionClient)
    (new_model_client : string -> Q -> PyExn + OpenAIChatCompletionClient)
    (model : string) (temperature : Q) (N : Z) (api_key : option string)
    (w w' : World) (wf : CodeDevelopmentWorkflow) (task : string) :
  __init__ new_model_client model temperature N api_key w = (inr wf, w') ->
  (forall (fuel i : nat) (m : Scheduler.SMessage),
     Scheduler.produced
       (Scheduler.run_team client (participants (team_of wf))
          (termination_condition wf) fuel task) !! i = Some m ->
     Str.contains "WORKFLOW_COMPLETE" (Scheduler.content m) = true ->
     exists tr,
       Scheduler.run_team client (participants (team_of wf))
         (termination_condition wf) fuel task = Scheduler.Completed tr
       /\ length (Scheduler.produced (Scheduler.Completed tr)) = S i
       /\ (i = 0%nat \/ Z.of_nat (S i) <= N)
       /\ (forall fuel', (fuel <= fuel')%nat ->
             Scheduler.run_team client (participants (team_of wf))
               (termination_condition wf) fuel' task = Scheduler.Completed tr))
  /\ (forall (fuel : nat) (tr : Scheduler.Transcript) (n : nat)
             (a : AssistantAgent) (text : string),
        Scheduler.run_team client (participants (team_of wf))
          (termination_condition wf) fuel task = Scheduler.Running tr n ->
        participants (team_of wf) !! (n mod length (participants (team_of wf)))%nat
        = Some a ->
        client tr (system_message a) = inr text ->
        Scheduler.run_team client (participants (team_of wf))
          (termination_condition wf) (S fuel) task
        = if (N <=? Z.of_nat (S n)) || Str.contains "WORKFLOW_COMPLETE" text
          then Scheduler.Completed
                 (tr ++ [Scheduler.mkSMessage (name a) text (length tr)])
          else Scheduler.Running
                 (tr ++ [Scheduler.mkSMessage (name a) text (length tr)]) (S n))
  /\ (forall (fuel : nat) (tr : Scheduler.Transcript),
        Scheduler.run_team client (participants (team_of wf))
          (termination_condition wf) fuel task = Scheduler.Completed tr ->
        exists m,
          last (Scheduler.produced (Scheduler.Completed tr)) = Some m
          /\ (Str.contains "WORKFLOW_COMPLETE" (Scheduler.content m) = true
              \/ N <= Z.of_nat (length (Scheduler.produced (Scheduler.Completed tr))))).
Proof.
  intros Hinit.
  destruct (init_team _ _ _ _ _ _ _ _ Hinit) as (Hcond & _ & _).
  rewrite Hcond. split_and!.
  - intros fuel i m Hi Hs.
    pose proof (run_team_inv client (participants (team_of wf)) N
                  "WORKFLOW_COMPLETE" fuel task) as Hinv.
    pose proof (run_team_stable client (participants (team_of wf)) N
                  "WORKFLOW_COMPLETE" fuel) as Hstable.
    destruct (Scheduler.run_team _ _ _ fuel task) as [|tr n|tr|f tr] eqn:E;
      cbn [engine_inv Scheduler.produced Scheduler.transcript] in *.
    + done.
    + destruct Hinv as (_ & _ & Hu & _).
      apply list_elem_of_lookup_2, Hu in Hi. congruence.
    + destruct Hinv as (_ & _ & Hlast & Hlim).
      pose proof (Hlast i m Hi Hs) as Hlen.
      exists tr. split_and!; [done|done| |].
      * rewrite Hlen in Hlim. destruct Hlim as [?|?]; [left; lia|by right].
      * intros fuel' Hle. rewrite (Hstable fuel' task); [by rewrite E| |done].
        intros tr' n'. by rewrite E.
    + destruct Hinv as (_ & Hu).
      apply list_elem_of_lookup_2, Hu in Hi. congruence.
  - intros fuel tr n a text. apply run_team_next.
  - intros fuel tr. apply run_team_completed_last.
Qed.

Lemma sentinel_stops_run_witness :
  (exists tr,
     Scheduler.run_team sample_client (participants (team_of sample_workflow))
       (termination_condition sample_workflow) 6 "Say WORKFLOW_COMPLETE at the end"
     = Scheduler.Completed tr
     /\ length (Scheduler.produced (Scheduler.Completed tr)) = 4%nat
     /\ (3%nat = 0%nat \/ Z.of_nat 4 <= 10)
     /\ (forall fuel', (6 <= fuel')%nat ->
           Scheduler.run_team sample_client (participants (team_of sample_workflow))
             (termination_condition sample_workflow) fuel'
             "Say WORKFLOW_COMPLETE at the end"
           = Scheduler.Completed tr))
  /\ Scheduler.run_team sample_client (participants (team_of sample_workflow))
       (termination_condition sample_workflow) 1 "Say WORKFLOW_COMPLETE at the end"
     = Scheduler.Running
         [ Scheduler.seed "Say WORKFLOW_COMPLETE at the end";
           Scheduler.mkSMessage "CodeWriter" "Working on it." 1 ] 1.
Proof.
  destruct (sentinel_stops_run sample_client any_model_client
              default_model default_temperature
              10 (Some "sk-test") empty_world
              (snd (__init__ any_model_client default_model default_temperature 10
                      (Some "sk-test") empty_world))
              sample_workflow "Say WORKFLOW_COMPLETE at the end" eq_refl)
    as (Hstops & Hnext & _).
  split.
  - apply (Hstops 6%nat 3%nat
             (Scheduler.mkSMessage "CodeWriter" "All done. WORKFLOW_COMPLETE" 4)).
    + vm_compute. reflexivity.
    + vm_compute. reflexivity.
  - exact (Hnext 0%nat [Scheduler.seed "Say WORKFLOW_COMPLETE at the end"] 0%nat
             (code_writer sample_workflow) "Working on it."
             eq_refl eq_refl eq_refl).
Defined.

(** C3: in every state of a run -- going on, completed or failed -- the
    [i]-th produced message (from 0, the seed left out) comes from the
    agent at position [i mod 3] of [CodeWriter, CodeReviewer,
    CodeOptimizer]. *)
Theorem round_robin_cyclic_order (client : Scheduler.CompletionClient)
    (new_model_client : string -> Q -> PyExn + OpenAIChatCompletionClient)
    (model : string) (temperature : Q) (N : Z) (api_key : option string)
    (w w' : World) (wf : CodeDevelopmentWorkflow)
    (task : string) (fuel i : nat) (m : Scheduler.SMessage) :
  __init__ new_model_client model temperature N api_key w = (inr wf, w') ->
  Scheduler.produced
    (Scheduler.run_team client (participants (team_of wf))
       (termination_condition wf) fuel task) !! i = Some m ->
  agent_names wf = ["CodeWriter"; "CodeReviewer"; "CodeOptimizer"]
  /\ agent_names wf !! (i mod length (agent_names wf))%nat
     = Some (Scheduler.source m).
Proof.
  intros Hinit Hi.
  destruct (init_team _ _ _ _ _ _ _ _ Hinit) as (Hcond & _ & Hnames).
  split; [done|].
  rewrite Hcond in Hi.
  pose proof (run_team_inv client (participants (team_of wf)) N
                "WORKFLOW_COMPLETE" fuel task) as Hinv.
  assert (cyclic_order (participants (team_of wf))
            (Scheduler.produced
               (Scheduler.run_team client (participants (team_of wf))
                  (OrTermination (MaxMessageTermination N)
                     (TextMentionTermination "WORKFLOW_COMPLETE")) fuel task)))
    as Hc.
  { destruct (Scheduler.run_team _ _ _ fuel task); cbn in *;
      [done|tauto|tauto|tauto]. }
  unfold agent_names. rewrite length_fmap, list_lookup_fmap.
  by apply Hc.
Qed.

Lemma round_robin_cyclic_order_witness :
  agent_names sample_workflow = ["CodeWriter"; "CodeReviewer"; "CodeOptimizer"]
  /\ agent_names sample_workflow !! (4 mod length (agent_names sample_workflow))%nat
     = Some "CodeReviewer".
Proof.
  apply (round_robin_cyclic_order quiet_client any_model_client
           default_model default_temperature
           10 (Some "sk-test") empty_world
           (snd (__init__ any_model_client default_model default_temperature 10
                   (Some "sk-test") empty_world))
           sample_workflow "Write add" 7 4
           (Scheduler.mkSMessage "CodeReviewer" "Working on it." 5)).
  - reflexivity.
  - vm_compute. reflexivity.
Defined.

(** A content that is not text makes either extraction raise. *)
Example extraction_non_text_raises :
  extractCode [ {[ "source" := PStr "CodeWriter"; "content" := PInt 3 ]} ] "CodeWriter"
  = inl (TypeError "expected string or bytes-like object")
  /\ extractReview [ {[ "source" := PStr "CodeReviewer";
                        "content" := PList ["a"] ]} ] "CodeReviewer"
     = inl (TypeError "sequence item: expected str instance").
Proof. split; vm_compute; reflexivity. Qed.

(** The scenario of the spec: three agents, the sentinel in the sixth
    produced message only; the run stops at six produced messages. *)
Example sentinel_in_sixth_message :
  let client : Scheduler.CompletionClient :=
    fun tr _ => inr (if (length tr =? 6)%nat then "WORKFLOW_COMPLETE" else "more") in
  Scheduler.source
    <$> Scheduler.produced
          (Scheduler.run_team client (participants (team_of sample_workflow))
             (termination_condition sample_workflow) 10 "Write add")
  = [ "CodeWriter"; "CodeReviewer"; "CodeOptimizer";
      "CodeWriter"; "CodeReviewer"; "CodeOptimizer" ].
Proof. vm_compute. reflexivity. Qed.

(** * Further properties of the code *)

(** ** When an extraction raises *)

Lemma content_is_text_value (m : Message) :
  content_is_text m <-> exists s, content_of m = PStr s.
Proof.
  unfold content_is_text, content_of.
  destruct (m !! "content") as [[]|]; cbn; split; try done; eauto.
  all: by intros [s [=]].
Qed.

Lemma collect_code_raises (vals : list PyVal) :
  match collect_code vals with
  | inl e =>
      e = TypeError "expected string or bytes-like object"
      /\ ~ Forall (fun v => exists s, v = PStr s) vals
  | inr _ => Forall (fun v => exists s, v = PStr s) vals
  end.
Proof.
  induction vals as [|v vals IH]; [by constructor|].
  cbn [collect_code].
  destruct v as [|z|s|l]; cbn [re_findall].
  1,2,4: split; [done|]; intros [[s [=]] _]%Forall_cons.
  destruct (collect_code vals) as [e|more].
  - destruct IH as [-> Hno]. split; [done|]. by intros [_ ?]%Forall_cons.
  - constructor; eauto.
Qed.

Lemma all_text_None (vals : list PyVal) :
  all_text vals = None <-> ~ Forall (fun v => exists s, v = PStr s) vals.
Proof.
  induction vals as [|v vals IH]; cbn [all_text].
  - split; [done|]. intros H. by destruct H.
  - destruct v as [|z|s|l].
    1,2,4: split; [|done]; intros _ [[s [=]] _]%Forall_cons.
    rewrite fmap_None, IH. split.
    + intros Hno [_ ?]%Forall_cons. by apply Hno.
    + intros Hno H. apply Hno. constructor; eauto.
Qed.

Lemma agent_values_text (msgs : list Message) (agent_name : string) :
  Forall (fun v => exists s, v = PStr s)
    (content_of <$> filter (from_agent agent_name) msgs)
  <-> Forall content_is_text (filter (from_agent agent_name) msgs).
Proof.
  rewrite Forall_fmap. apply Forall_iff. intros m. cbn.
  by rewrite content_is_text_value.
Qed.

Lemma extractCode_raises (msgs : list Message) (agent_name : string) (e : PyExn) :
  extractCode msgs agent_name = inl e <->
  e = TypeError "expected string or bytes-like object"
  /\ ~ Forall content_is_text (filter (from_agent agent_name) msgs).
Proof.
  rewrite extractCode_values, <- agent_values_text.
  pose proof (collect_code_raises
                (content_of <$> filter (from_agent agent_name) msgs)) as Hc.
  destruct (collect_code _) as [e'|blocks].
  - destruct Hc as [-> Hno]. split; [by intros [= <-]|by intros [-> _]].
  - split; [done|]. by intros [_ Hno].
Qed.

Lemma extractReview_raises (msgs : list Message) (agent_name : string) (e : PyExn) :
  extractReview msgs agent_name = inl e <->
  e = TypeError "sequence item: expected str instance"
  /\ ~ Forall content_is_text (filter (from_agent agent_name) msgs).
Proof.
  rewrite extractReview_values, <- agent_values_text. cbv zeta.
  pose proof (all_text_None
                (content_of <$> filter (from_agent agent_name) msgs)) as Ht.
  unfold str_join.
  destruct (content_of <$> filter (from_agent agent_name) msgs) as [|v vals] eqn:Ev.
  - cbn. split; [done|]. intros [_ Hno]. by destruct Hno.
  - cbn [list_truthy]. destruct (all_text (v :: vals)) as [ss|].
    + split; [done|]. intros [_ Hno]. apply Ht in Hno. done.
    + split; [intros [= <-]; split; [done|by apply Ht] | by intros [-> _]].
Qed.

(** X1: an extraction raises exactly when some message of the agent has a
    content that is not text, and what it raises is a [TypeError]. *)
Theorem extraction_raises_iff_non_text (msgs : list Message) (agent_name : string) :
  ((exists e, extractCode msgs agent_name = inl e)
   <-> ~ Forall content_is_text (filter (from_agent agent_name) msgs))
  /\ ((exists e, extractReview msgs agent_name = inl e)
      <-> ~ Forall content_is_text (filter (from_agent agent_name) msgs))
  /\ (forall e,
        extractCode msgs agent_name = inl e \/ extractReview msgs agent_name = inl e ->
        exists msg, e = TypeError msg).
Proof.
  split_and!.
  - split.
    + by intros [e [_ H]%extractCode_raises].
    + intros H. eexists. by apply extractCode_raises.
  - split.
    + by intros [e [_ H]%extractReview_raises].
    + intros H. eexists. by apply extractReview_raises.
  - intros e [[-> _]%extractCode_raises | [-> _]%extractReview_raises]; by eexists.
Qed.

(** ** Extraction and the shape of the transcript *)

Lemma join_app (sep : string) (l1 l2 : list string) :
  l1 <> [] -> l2 <> [] ->
  Str.join sep (l1 ++ l2) = Str.join sep l1 +:+ sep +:+ Str.join sep l2.
Proof.
  intros H1 H2. induction l1 as [|x [|y l1] IH]; [done| |].
  - destruct l2; [done|]. reflexivity.
  - change (Str.join sep ((x :: y :: l1) ++ l2))
      with (x +:+ sep +:+ Str.join sep ((y :: l1) ++ l2)).
    rewrite IH by done.
    change (Str.join sep (x :: y :: l1)) with (x +:+ sep +:+ Str.join sep (y :: l1)).
    by rewrite !str_app_assoc.
Qed.

Lemma joined_or_app (absent : string) (p1 p2 : list string) :
  (p1 = [] -> joined_or absent (p1 ++ p2) = joined_or absent p2)
  /\ (p2 = [] -> joined_or absent (p1 ++ p2) = joined_or absent p1)
  /\ (p1 <> [] -> p2 <> [] ->
      joined_or absent (p1 ++ p2)
      = joined_or absent p1 +:+ blank_line +:+ joined_or absent p2).
Proof.
  split_and!.
  - by intros ->.
  - intros ->. by rewrite app_nil_r.
  - intros H1 H2. destruct p1 as [|x p1]; [done|]. destruct p2 as [|y p2]; [done|].
    cbn [joined_or app]. by apply (join_app _ (x :: p1) (y :: p2)).
Qed.

Lemma agent_texts_app (msgs1 msgs2 : list Message) (agent_name : string) :
  agent_texts (msgs1 ++ msgs2) agent_name
  = agent_texts msgs1 agent_name ++ agent_texts msgs2 agent_name.
Proof. unfold agent_texts. by rewrite filter_app, fmap_app. Qed.

Lemma code_blocks_app (msgs1 msgs2 : list Message) (agent_name : string) :
  code_blocks (msgs1 ++ msgs2) agent_name
  = code_blocks msgs1 agent_name ++ code_blocks msgs2 agent_name.
Proof. unfold code_blocks. by rewrite agent_texts_app, fmap_app, concat_app. Qed.

Lemma extractCode_blocks (msgs : list Message) (agent_name : string) :
  Forall content_is_text (filter (from_agent agent_name) msgs) ->
  extractCode msgs agent_name
  = inr (joined_or "No code found" (code_blocks msgs agent_name)).
Proof. apply extractCode_text. Qed.

(** X2: on a transcript made of two parts, with text contents, the code
    extraction is the extraction of the first part, a blank line and the
    extraction of the second part when both parts hold a code block of the
    agent, and the extraction of the other part when one part holds none;
    the review extraction composes the same way over the agent's
    messages. *)
Theorem extraction_over_append (msgs1 msgs2 : list Message) (agent_name : string) :
  Forall content_is_text (filter (from_agent agent_name) (msgs1 ++ msgs2)) ->
  (code_blocks msgs1 agent_name = [] ->
   extractCode (msgs1 ++ msgs2) agent_name = extractCode msgs2 agent_name)
  /\ (code_blocks msgs2 agent_name = [] ->
      extractCode (msgs1 ++ msgs2) agent_name = extractCode msgs1 agent_name)
  /\ (code_blocks msgs1 agent_name <> [] -> code_blocks msgs2 agent_name <> [] ->
      exists c1 c2,
        extractCode msgs1 agent_name = inr c1
        /\ extractCode msgs2 agent_name = inr c2
        /\ extractCode (msgs1 ++ msgs2) agent_name = inr (c1 +:+ blank_line +:+ c2))
  /\ (filter (from_agent agent_name) msgs1 = [] ->
      extractReview (msgs1 ++ msgs2) agent_name = extractReview msgs2 agent_name)
  /\ (filter (from_agent agent_name) msgs2 = [] ->
      extractReview (msgs1 ++ msgs2) agent_name = extractReview msgs1 agent_name)
  /\ (filter (from_agent agent_name) msgs1 <> [] ->
      filter (from_agent agent_name) msgs2 <> [] ->
      exists r1 r2,
        extractReview msgs1 agent_name = inr r1
        /\ extractReview msgs2 agent_name = inr r2
        /\ extractReview (msgs1 ++ msgs2) agent_name
           = inr (r1 +:+ blank_line +:+ r2)).
Proof.
  intros H. pose proof H as H'.
  rewrite filter_app, Forall_app in H'. destruct H' as [H1 H2].
  rewrite (extractCode_blocks _ _ H), (extractCode_blocks _ _ H1),
    (extractCode_blocks _ _ H2), code_blocks_app.
  rewrite (extractReview_text _ _ H), (extractReview_text _ _ H1),
    (extractReview_text _ _ H2), agent_texts_app.
  destruct (joined_or_app "No code found" (code_blocks msgs1 agent_name)
              (code_blocks msgs2 agent_name)) as (Ha & Hb & Hc).
  destruct (joined_or_app "No review found" (agent_texts msgs1 agent_name)
              (agent_texts msgs2 agent_name)) as (Ra & Rb & Rc).
  assert (forall l : list Message, text_of <$> l = [] <-> l = []) as Hnil.
  { intros l. by destruct l. }
  split_and!.
  - intros E. by rewrite Ha.
  - intros E. by rewrite Hb.
  - intros E1 E2. eexists _, _. split_and!; [done|done|]. by rewrite Hc.
  - intros E. rewrite Ra; [done|]. by apply Hnil.
  - intros E. rewrite Rb; [done|]. by apply Hnil.
  - intros E1 E2. eexists _, _. split_and!; [done|done|].
    rewrite Rc; [done| |]; unfold agent_texts; by rewrite Hnil.
Qed.

Lemma extraction_over_append_witness :
  exists c1 c2,
    extractCode (take 2 sample_transcript) "CodeWriter" = inr c1
    /\ extractCode (drop 2 sample_transcript ++ take 2 sample_transcript)
         "CodeWriter" = inr c2
    /\ extractCode (take 2 sample_transcript
                    ++ (drop 2 sample_transcript ++ take 2 sample_transcript))
         "CodeWriter" = inr (c1 +:+ blank_line +:+ c2).
Proof.
  destruct (extraction_over_append (take 2 sample_transcript)
              (drop 2 sample_transcript ++ take 2 sample_transcript) "CodeWriter")
    as (_ & _ & Hboth & _).
  - apply (bool_decide_unpack _). vm_compute. exact I.
  - apply Hboth; vm_compute; discriminate.
Defined.

(** X3: an extraction looks at the agent's own messages only: dropping
    every other message from the transcript changes neither result, value
    or exception. *)
Theorem extraction_ignores_other_agents (msgs : list Message) (agent_name : string) :
  extractCode (filter (from_agent agent_name) msgs) agent_name
  = extractCode msgs agent_name
  /\ extractReview (filter (from_agent agent_name) msgs) agent_name
     = extractReview msgs agent_name.
Proof.
  rewrite !extractCode_values, !extractReview_values. cbv zeta.
  assert (filter (from_agent agent_name) (filter (from_agent agent_name) msgs)
          = filter (from_agent agent_name) msgs) as ->; [|done].
  induction msgs as [|m msgs IH]; [done|].
  rewrite filter_cons. destruct (decide (from_agent agent_name m)); [|done].
  rewrite filter_cons, decide_True by done. by rewrite IH.
Qed.

(** ** What the pattern of code blocks finds *)

Lemma strip_prefix_app_r (p s r x : string) :
  Str.strip_prefix p s = Some r -> Str.strip_prefix p (s +:+ x) = Some (r +:+ x).
Proof.
  intros ->%strip_prefix_Some. by rewrite str_app_assoc, strip_prefix_app.
Qed.

Lemma contains_cons_false (needle : string) (c : ascii) (s : string) :
  Str.contains needle (String c s) = false ->
  Str.strip_prefix needle (String c s) = None /\ Str.contains needle s = false.
Proof.
  rewrite contains_unfold.
  by destruct (Str.strip_prefix needle (String c s)).
Qed.

(** A closing marker cannot begin inside a text free of closing markers
    and end in the marker that follows it. *)
Lemma closing_straddle (b x : string) :
  b <> "" ->
  Str.strip_prefix closing b = None ->
  Str.strip_prefix closing (b +:+ closing +:+ x) = None.
Proof.
  intros Hne H.
  destruct b as [|c1 [|c2 [|c3 [|c4 b]]]]; [done| | | |];
    unfold closing, fence, Str.nl in *;
    rewrite ?str_app_cons, ?str_app_nil_l in *;
    cbn in *; repeat case_decide; subst; try done.
Qed.

Lemma no_close_inside_iff (body rest : string) :
  no_close_inside body rest <-> Str.contains closing body = false.
Proof.
  induction body as [|c body IH].
  - split; [|done]. intros _. reflexivity.
  - cbn [no_close_inside]. rewrite IH. split.
    + intros [H1 H2]. rewrite contains_unfold, H2.
      destruct (Str.strip_prefix closing (String c body)) as [r|] eqn:E; [|done].
      by rewrite (strip_prefix_app_r _ _ _ _ E) in H1.
    + intros [H1 H2]%contains_cons_false. split; [|done].
      by apply closing_straddle.
Qed.

Lemma substring_of_cons (b s : string) (c : ascii) :
  substring_of b s -> substring_of b (String c s).
Proof. intros (x & y & ->). by exists (String c x), y. Qed.

Lemma substring_of_app_l (b s p : string) :
  substring_of b s -> substring_of b (p +:+ s).
Proof.
  intros (x & y & ->). exists (p +:+ x), y. by rewrite str_app_assoc.
Qed.

Lemma regions_pieces (s : string) (bodies : list string) :
  fenced_regions python_tag s bodies ->
  Forall (fun b => substring_of b s /\ Str.contains closing b = false) bodies
  /\ (8 * length bodies + total_length bodies <= String.length s)%nat.
Proof.
  induction 1 as [|c s bodies _ _ [IH1 IH2]
                  |s body rest bodies (tag & Htag & Hb & ->) _ [IH1 IH2]].
  - split; [constructor|cbn; lia].
  - split.
    + eapply Forall_impl; [exact IH1|]. intros b [Hs Hc].
      split; [by apply substring_of_cons|done].
    + cbn [String.length]. lia.
  - split.
    + constructor.
      * split; [|by apply (no_close_inside_iff body rest)].
        exists (fence +:+ tag +:+ Str.nl), (closing +:+ rest).
        by rewrite !str_app_assoc.
      * eapply Forall_impl; [exact IH1|]. intros b [Hs Hc]. split; [|done].
        by do 5 apply substring_of_app_l.
    + rewrite !str_app_length. cbn [length total_length foldr].
      fold (total_length bodies).
      change (String.length fence) with 3%nat.
      change (String.length Str.nl) with 1%nat.
      change (String.length closing) with 4%nat. lia.
Qed.

(** X4: every code block the pattern finds is a contiguous piece of the
    text and holds no closing marker (a line feed followed by a fence); and
    since a block costs at least eight characters of markers, eight times
    the number of blocks plus their total length never exceeds the length
    of the text. *)
Theorem code_blocks_are_pieces (text : string) :
  Forall (fun b => substring_of b text /\ Str.contains closing b = false)
    (Re.findall code_block_pattern text)
  /\ (8 * length (Re.findall code_block_pattern text)
      + total_length (Re.findall code_block_pattern text)
      <= String.length text)%nat.
Proof. apply regions_pieces. by apply findall_code_blocks. Qed.

Lemma no_closing_no_regions (s : string) :
  Str.contains closing s = false -> fenced_regions python_tag s [].
Proof.
  induction s as [|c s IH]; [constructor|].
  intros H. pose proof H as [_ Hs]%contains_cons_false.
  apply regions_skip; [|by apply IH].
  intros body rest (tag & _ & _ & E).
  rewrite E in H.
  replace (fence +:+ tag +:+ Str.nl +:+ body +:+ closing +:+ rest)
    with ((fence +:+ tag +:+ Str.nl +:+ body) +:+ closing +:+ rest) in H
    by (by rewrite !str_app_assoc).
  by rewrite contains_app in H.
Qed.

(** X5: a message without a closing marker -- no fence at all, or a fence
    that is opened and never closed on a line of its own -- contributes no
    code: when no text of the agent holds a closing marker, the code
    extraction returns "No code found". *)
Theorem unclosed_fence_yields_no_code (msgs : list Message) (agent_name : string) :
  Forall content_is_text (filter (from_agent agent_name) msgs) ->
  Forall (fun t => Str.contains closing t = false) (agent_texts msgs agent_name) ->
  extractCode msgs agent_name = inr "No code found".
Proof.
  intros Htext Hno. rewrite (extractCode_text _ _ Htext).
  assert (concat (Re.findall code_block_pattern <$> agent_texts msgs agent_name) = [])
    as ->; [|done].
  induction Hno as [|t texts Ht _ IH]; [done|].
  rewrite fmap_cons. cbn [concat]. rewrite IH.
  apply no_closing_no_regions, findall_code_blocks in Ht. by rewrite Ht.
Qed.

Lemma unclosed_fence_yields_no_code_witness :
  extractCode
    [ message_dict "CodeWriter" (fence +:+ "python" +:+ Str.nl +:+ "x = 1" +:+ fence) ]
    "CodeWriter"
  = inr "No code found".
Proof.
  apply unclosed_fence_yields_no_code.
  - apply (bool_decide_unpack _). vm_compute. exact I.
  - apply (bool_decide_unpack _). vm_compute. exact I.
Defined.

(** No match starts inside a fence-free text that is followed by a
    fence. *)
Lemma no_match_before_fence (u t : string) :
  u <> "" ->
  Str.contains fence u = false ->
  Re.match_here code_block_pattern (u +:+ fence +:+ t) "" = None.
Proof.
  intros Hne H. rewrite match_block_unfold.
  destruct u as [|c1 [|c2 [|c3 u]]]; [done| | |];
    unfold fence in *; rewrite ?str_app_cons, ?str_app_nil_l;
    cbn [Str.strip_prefix]; repeat case_decide; subst; done.
Qed.

Lemma regions_after_text (pre s : string) (bodies : list string) :
  Str.contains fence pre = false ->
  fenced_regions python_tag (fence +:+ s) bodies ->
  fenced_regions python_tag (pre +:+ fence +:+ s) bodies.
Proof.
  intros H Hr. induction pre as [|c pre IH]; [done|].
  pose proof H as [_ Hpre]%contains_cons_false.
  rewrite str_app_cons. apply regions_skip; [|by apply IH].
  intros body rest Ho%match_block_complete.
  rewrite <- str_app_cons, no_match_before_fence in Ho; done.
Qed.

Lemma findall_single_block (pre tag body post : string) :
  Str.contains fence pre = false ->
  python_tag tag ->
  Str.contains closing body = false ->
  Str.contains closing post = false ->
  Re.findall code_block_pattern
    (pre +:+ fence +:+ tag +:+ Str.nl +:+ body +:+ closing +:+ post)
  = [body].
Proof.
  intros Hpre Htag Hbody Hpost.
  apply findall_code_blocks, regions_after_text; [done|].
  apply regions_block with (rest := post).
  - exists tag. split_and!; [done| |done]. by apply no_close_inside_iff.
  - by apply no_closing_no_regions.
Qed.

(** X6: a message made of fence-free text, one block opened by a fence
    with the tag [python] or none and a line feed, a body free of closing
    markers, a closing marker, and text free of closing markers, gives back
    exactly the body. *)
Theorem well_formed_block_round_trip (agent_name pre tag body post : string) :
  Str.contains fence pre = false ->
  python_tag tag ->
  Str.contains closing body = false ->
  Str.contains closing post = false ->
  extractCode
    [ message_dict agent_name
        (pre +:+ fence +:+ tag +:+ Str.nl +:+ body +:+ closing +:+ post) ]
    agent_name
  = inr body.
Proof.
  intros Hpre Htag Hbody Hpost.
  rewrite extractCode_values.
  assert (filter (from_agent agent_name)
            [message_dict agent_name
               (pre +:+ fence +:+ tag +:+ Str.nl +:+ body +:+ closing +:+ post)]
          = [message_dict agent_name
               (pre +:+ fence +:+ tag +:+ Str.nl +:+ body +:+ closing +:+ post)]) as ->.
  { rewrite filter_cons, decide_True; [done|].
    unfold from_agent, message_dict. by rewrite lookup_insert_eq. }
  rewrite fmap_cons.
  assert (forall t, content_of (message_dict agent_name t) = PStr t) as ->.
  { intros t. unfold content_of, message_dict.
    rewrite lookup_insert_ne by done. by rewrite lookup_singleton_eq. }
  cbn [fmap list_fmap collect_code re_findall].
  rewrite findall_single_block by done. reflexivity.
Qed.

Lemma well_formed_block_round_trip_witness :
  extractCode
    [ message_dict "CodeWriter"
        (("Here it is:" +:+ Str.nl) +:+ fence +:+ "python" +:+ Str.nl
         +:+ ("def add(a, b):" +:+ Str.nl +:+ "    return a + b") +:+ closing
         +:+ (Str.nl +:+ "CODE_WRITTEN")) ]
    "CodeWriter"
  = inr ("def add(a, b):" +:+ Str.nl +:+ "    return a + b").
Proof.
  apply (well_formed_block_round_trip "CodeWriter" ("Here it is:" +:+ Str.nl) "python"
           ("def add(a, b):" +:+ Str.nl +:+ "    return a + b")
           (Str.nl +:+ "CODE_WRITTEN")).
  - vm_compute. reflexivity.
  - right. reflexivity.
  - vm_compute. reflexivity.
  - vm_compute. reflexivity.
Defined.

(** ** What [run] returns *)

Lemma build_result_cases (clock_after : World -> Z) (task : string)
    (r : TaskResult) (start_time : Z) (w : World) :
  build_result clock_after task r start_time w =
  let history := default [] (result_messages r) in
  match extractCode history "CodeWriter" with
  | inl e => inl e
  | inr initial =>
      match extractReview history "CodeReviewer" with
      | inl e => inl e
      | inr review =>
          match extractCode history "CodeOptimizer" with
          | inl e => inl e
          | inr final =>
              inr (mkWorkflowResult task initial review final history
                     (clock_after w - start_time) (result_usage r))
          end
      end
  end.
Proof.
  unfold build_result, extractCode, extractReview. cbv zeta.
  set (history := default [] (result_messages r)).
  pose proof (extract_code_keeps_messages "CodeWriter" (mkFrame history [])) as K1.
  destruct (_extract_code_from_messages "CodeWriter" _) as [[e|c1] fr1];
    cbn [fst snd messages] in *; [done|]. rewrite K1.
  pose proof (extract_review_keeps_messages "CodeReviewer" (mkFrame history [])) as K2.
  destruct (_extract_review_from_messages "CodeReviewer" _) as [[e|rv] fr2];
    cbn [fst snd messages] in *; [done|]. rewrite K2.
  pose proof (extract_code_keeps_messages "CodeOptimizer" (mkFrame history [])) as K3.
  destruct (_extract_code_from_messages "CodeOptimizer" _) as [[e|c2] fr3];
    cbn [fst snd messages] in *; [done|]. by rewrite K3.
Qed.

Section RunFacts.

Variable team_run console_run_stream :
  RoundRobinGroupChat -> string -> TerminationCondition -> Await TaskResult.
Variable clock_after : World -> Z.
Variable self : CodeDevelopmentWorkflow.
Variable task : string.
Variable verbose : bool.
Variable w : World.

(** The call [run] awaits. *)
Local Abbreviation awaited :=
  ((if verbose then console_run_stream else team_run)
     (team_of self) task (termination_condition self)
     (announce self task verbose w)).

Lemma run_cases :
  run team_run console_run_stream clock_after self task verbose w =
  match awaited with
  | None => None
  | Some (inl e, w1) => Some (except_clause verbose e w1)
  | Some (inr r, w1) =>
      match build_result clock_after task r (wall_clock w) w1 with
      | inl e => Some (except_clause verbose e w1)
      | inr result =>
          Some (inr result,
                if verbose then
                  print_all [ Text (Str.nl +:+ banner);
                              Text "✅ Workflow completed successfully!";
                              Elapsed "⏱️  Execution time: "
                                      (execution_time result) " seconds";
                              Text banner ] w1
                else w1)
      end
  end.
Proof. unfold run. by destruct verbose. Qed.

Lemma except_clause_raises (e : PyExn) (w1 : World) :
  fst (except_clause verbose e w1) = inl e.
Proof. unfold except_clause. by destruct (is_Exception e). Qed.

Lemma except_clause_no_result (e : PyExn) (w1 w' : World) (result : WorkflowResult) :
  Some (except_clause verbose e w1) <> Some (inr result, w').
Proof.
  intros [= H]. apply (f_equal fst) in H. by rewrite except_clause_raises in H.
Qed.

Lemma except_clause_same (e e' : PyExn) (w1 w' : World) :
  Some (except_clause verbose e w1) = Some (inl e', w') -> e' = e.
Proof.
  intros [= H]. apply (f_equal fst) in H. rewrite except_clause_raises in H.
  by simplify_eq/=.
Qed.

(** X7: the fields of a result that [run] returns agree with one another
    and with the team's answer: the task is the one given, the history is
    the team's list of messages (empty when the answer has none), the two
    codes and the review are the extractions from that very history, the
    usage is the team's, and the time is what the clock shows once the
    extractions are done less what it showed when [run] began. *)
Theorem run_result_consistent (result : WorkflowResult) (w' : World) :
  run team_run console_run_stream clock_after self task verbose w = Some (inr result, w') ->
  original_task result = task
  /\ extractCode (conversation_history result) "CodeWriter"
     = inr (initial_code result)
  /\ extractReview (conversation_history result) "CodeReviewer"
     = inr (review_feedback result)
  /\ extractCode (conversation_history result) "CodeOptimizer"
     = inr (final_code result)
  /\ exists r w1,
       awaited = Some (inr r, w1)
       /\ conversation_history result = default [] (result_messages r)
       /\ token_usage result = result_usage r
       /\ execution_time result = clock_after w1 - wall_clock w.
Proof.
  rewrite run_cases.
  destruct awaited as [[[e|r] w1]|]; [| |done].
  { by intros ?%except_clause_no_result. }
  rewrite build_result_cases. cbv zeta.
  destruct (extractCode _ "CodeWriter") as [e|c1] eqn:E1.
  { by intros ?%except_clause_no_result. }
  destruct (extractReview _ "CodeReviewer") as [e|rv] eqn:E2.
  { by intros ?%except_clause_no_result. }
  destruct (extractCode _ "CodeOptimizer") as [e|c2] eqn:E3.
  { by intros ?%except_clause_no_result. }
  intros [= <- _]. cbn. split_and!; try done. by exists r, w1.
Qed.

(** X8: once the team has answered, [run] returns a result exactly when the
    messages of the writer, the reviewer and the optimizer all have text
    contents; otherwise it raises the [TypeError] of the failing
    extraction. *)
Theorem run_succeeds_iff_text (r : TaskResult) (w1 : World) :
  awaited = Some (inr r, w1) ->
  ((exists result w', run team_run console_run_stream clock_after self task verbose w
                      = Some (inr result, w'))
   <-> forall agent, agent ∈ extracted_agents ->
         Forall content_is_text
           (filter (from_agent agent) (default [] (result_messages r))))
  /\ (forall e w', run team_run console_run_stream clock_after self task verbose w
                   = Some (inl e, w') ->
        exists msg, e = TypeError msg).
Proof.
  intros Haw. rewrite run_cases, Haw, build_result_cases. cbv zeta.
  set (history := default [] (result_messages r)).
  assert (forall P : string -> Prop,
            (forall agent, agent ∈ extracted_agents -> P agent)
            <-> P "CodeWriter" /\ P "CodeReviewer" /\ P "CodeOptimizer") as Hall.
  { intros P. unfold extracted_agents. split.
    - intros H. split_and!; apply H; set_solver.
    - intros (H1 & H2 & H3) agent Hin.
      repeat (apply elem_of_cons in Hin as [->|Hin]; [done|]).
      by apply elem_of_nil in Hin. }
  rewrite Hall.
  destruct (extractCode history "CodeWriter") as [e1|c1] eqn:E1.
  { apply extractCode_raises in E1 as [-> Hno]. split.
    - split; [|tauto]. by intros (? & ? & ?%except_clause_no_result).
    - intros e w' ->%except_clause_same. by eexists. }
  destruct (extractReview history "CodeReviewer") as [e2|rv] eqn:E2.
  { apply extractReview_raises in E2 as [-> Hno]. split.
    - split; [|tauto]. by intros (? & ? & ?%except_clause_no_result).
    - intros e w' ->%except_clause_same. by eexists. }
  destruct (extractCode history "CodeOptimizer") as [e3|c2] eqn:E3.
  { apply extractCode_raises in E3 as [-> Hno]. split.
    - split; [|tauto]. by intros (? & ? & ?%except_clause_no_result).
    - intros e w' ->%except_clause_same. by eexists. }
  split; [|done]. split; [|by eexists _, _].
  intros _.
  assert (forall agent c, extractCode history agent = inr c ->
            Forall content_is_text (filter (from_agent agent) history)) as Hc.
  { intros agent c E. destruct (decide (Forall content_is_text
                                   (filter (from_agent agent) history))) as [|Hno]; [done|].
    assert (extractCode history agent
            = inl (TypeError "expected string or bytes-like object")) as E'
      by by apply extractCode_raises.
    congruence. }
  assert (forall agent c, extractReview history agent = inr c ->
            Forall content_is_text (filter (from_agent agent) history)) as Hr.
  { intros agent c E. destruct (decide (Forall content_is_text
                                   (filter (from_agent agent) history))) as [|Hno]; [done|].
    assert (extractReview history agent
            = inl (TypeError "sequence item: expected str instance")) as E'
      by by apply extractReview_raises.
    congruence. }
  split_and!; eauto.
Qed.

(** X9: when the team's answer has no messages -- the attribute is missing
    or the list is empty -- [run] returns a result with an empty history
    whose codes are "No code found" and whose review is
    "No review found". *)
Theorem run_without_messages (r : TaskResult) (w1 : World) :
  awaited = Some (inr r, w1) ->
  result_messages r = None \/ result_messages r = Some [] ->
  exists result w',
    run team_run console_run_stream clock_after self task verbose w = Some (inr result, w')
    /\ conversation_history result = []
    /\ initial_code result = "No code found"
    /\ review_feedback result = "No review found"
    /\ final_code result = "No code found".
Proof.
  intros Haw Hnone. rewrite run_cases, Haw, build_result_cases.
  assert (default [] (result_messages r) = []) as -> by by destruct Hnone as [->| ->].
  cbn. by eexists _, _.
Qed.

End RunFacts.

(** X10: in silent mode [run] prints nothing and touches nothing itself:
    the process is left exactly as the team run left it, the team run was
    started in the caller's own process, and the console entry point plays
    no part. *)
Theorem run_silent
    (team_run console_run_stream console_run_stream' :
       RoundRobinGroupChat -> string -> TerminationCondition -> Await TaskResult)
    (clock_after : World -> Z)
    (self : CodeDevelopmentWorkflow) (task : string) (w : World) :
  run team_run console_run_stream' clock_after self task false w
  = run team_run console_run_stream clock_after self task false w
  /\ (forall outcome w',
        run team_run console_run_stream clock_after self task false w = Some (outcome, w') ->
        exists answer,
          team_run (team_of self) task (termination_condition self) w
          = Some (answer, w'))
  /\ (team_run (team_of self) task (termination_condition self) w = None ->
      run team_run console_run_stream clock_after self task false w = None).
Proof.
  rewrite !run_cases. cbn [announce].
  destruct (team_run _ _ _ w) as [[[e|r] w1]|]; [| |done].
  - split_and!; [done| |done]. unfold except_clause.
    destruct (is_Exception e); intros ? ? [= <- <-]; by eexists.
  - split_and!; [done| |done].
    destruct (build_result _ _ _ _) as [e|result].
    + unfold except_clause. destruct (is_Exception e); intros ? ? [= <- <-]; by eexists.
    + intros ? ? [= <- <-]. by eexists.
Qed.

Lemma run_result_consistent_witness :
  original_task sample_result = "Write add"
  /\ extractCode (conversation_history sample_result) "CodeWriter"
     = inr (initial_code sample_result)
  /\ extractReview (conversation_history sample_result) "CodeReviewer"
     = inr (review_feedback sample_result)
  /\ extractCode (conversation_history sample_result) "CodeOptimizer"
     = inr (final_code sample_result)
  /\ exists r w1,
       canned_team sample_answer (team_of sample_workflow) "Write add"
         (termination_condition sample_workflow)
         (announce sample_workflow "Write add" false empty_world)
       = Some (inr r, w1)
       /\ conversation_history sample_result = default [] (result_messages r)
       /\ token_usage sample_result = result_usage r
       /\ execution_time sample_result = late_clock w1 - wall_clock empty_world.
Proof.
  apply (run_result_consistent (canned_team sample_answer) (canned_team sample_answer)
           late_clock sample_workflow "Write add" false empty_world sample_result empty_world).
  vm_compute. reflexivity.
Defined.

Lemma run_succeeds_iff_text_witness :
  ((exists result w',
      run (canned_team sample_answer) (canned_team sample_answer)
        late_clock sample_workflow "Write add" true empty_world
      = Some (inr result, w'))
   <-> forall agent, agent ∈ extracted_agents ->
         Forall content_is_text
           (filter (from_agent agent) (default [] (result_messages sample_answer))))
  /\ (forall e w',
        run (canned_team sample_answer) (canned_team sample_answer)
          late_clock sample_workflow "Write add" true empty_world
        = Some (inl e, w') ->
        exists msg, e = TypeError msg).
Proof.
  apply (run_succeeds_iff_text (canned_team sample_answer) (canned_team sample_answer)
           late_clock sample_workflow "Write add" true empty_world sample_answer
           (announce sample_workflow "Write add" true empty_world)).
  reflexivity.
Defined.

Lemma run_without_messages_witness :
  exists result w',
    run (canned_team bare_answer) (canned_team bare_answer)
      late_clock sample_workflow "Write add" false empty_world
    = Some (inr result, w')
    /\ conversation_history result = []
    /\ initial_code result = "No code found"
    /\ review_feedback result = "No review found"
    /\ final_code result = "No code found".
Proof.
  apply (run_without_messages (canned_team bare_answer) (canned_team bare_answer)
           late_clock sample_workflow "Write add" false empty_world bare_answer empty_world).
  - reflexivity.
  - left. reflexivity.
Defined.

(** ** Construction and the environment *)

Section ConstructionWorld.

Variable new_model_client : string -> Q -> PyExn + OpenAIChatCompletionClient.





End ConstructionWorld.





(** ** The example program *)

(** X13: with no key in the environment [main] ends at once with the key
    error of the constructor: nothing is printed, no team is run and
    nothing is closed -- the process is left as it was. *)
Theorem main_without_key
    (team_run console_run_stream :
       RoundRobinGroupChat -> string -> TerminationCondition -> Await TaskResult)
    (clock_after : World -> Z)
    (new_model_client : string -> Q -> PyExn + OpenAIChatCompletionClient)
    (client_close : OpenAIChatCompletionClient -> Await unit) (w : World) :
  absent (getenv "OPENAI_API_KEY" w) ->
  main team_run console_run_stream clock_after new_model_client client_close w
  = Some (inl api_key_error, w).
Proof.
  intros Ha%opt_truthy_false. unfold main.
  by rewrite (init_fails _ _ _ _ None w eq_refl Ha).
Qed.

Lemma main_without_key_witness :
  main (canned_team sample_answer) (canned_team sample_answer) late_clock
       any_model_client quiet_close empty_world
  = Some (inl api_key_error, empty_world).
Proof.
  apply main_without_key. left. reflexivity.
Defined.

(** X14: when the run of the team raises, [main] still closes the model
    client, after the error has been reported; then an [Exception] is
    swallowed and [main] returns normally, anything else goes on being
    raised, and an exception raised by [close] itself takes its place. *)
Theorem main_after_failure
    (team_run console_run_stream :
       RoundRobinGroupChat -> string -> TerminationCondition -> Await TaskResult)
    (clock_after : World -> Z)
    (new_model_client : string -> Q -> PyExn + OpenAIChatCompletionClient)
    (client_close : OpenAIChatCompletionClient -> Await unit)
    (w w0 w1 : World) (workflow : CodeDevelopmentWorkflow) (e : PyExn) :
  __init__ new_model_client "gpt-4o-mini" (1 # 10) 12 None w = (inr workflow, w0) ->
  console_run_stream (team_of workflow) main_task (termination_condition workflow)
    (announce workflow main_task true w0) = Some (inl e, w1) ->
  main team_run console_run_stream clock_after new_model_client client_close w =
  match client_close (self_model_client workflow) (reported e w1) with
  | None => None
  | Some (inl e', w2) => Some (inl e', w2)
  | Some (inr _, w2) => Some (if is_Exception e then inr tt else inl e, w2)
  end.
Proof.
  intros Hinit Hrun. unfold main, main_try, close. rewrite Hinit.
  rewrite run_cases, Hrun. unfold except_clause, reported.
  destruct (is_Exception e) eqn:He; cbn; rewrite ?He; done.
Qed.

Lemma main_after_failure_witness :
  main (failing_team (OtherException "RuntimeError" "quota"))
       (failing_team (OtherException "RuntimeError" "quota")) late_clock
       any_model_client quiet_close
       keyed_world
  = Some (inr tt,
          reported (OtherException "RuntimeError" "quota")
            (announce main_workflow main_task true main_world)).
Proof.
  rewrite (main_after_failure
             (failing_team (OtherException "RuntimeError" "quota"))
             (failing_team (OtherException "RuntimeError" "quota")) late_clock
             any_model_client quiet_close
             keyed_world main_world
             (announce main_workflow main_task true main_world)
             main_workflow (OtherException "RuntimeError" "quota")).
  - reflexivity.
  - reflexivity.
  - reflexivity.
Defined.

(** ** The example scripts *)

Lemma from_agent_source (a : string) (m : Message) (v : PyVal) :
  m !! "source" = Some v -> from_agent a m <-> v = PStr a.
Proof. unfold from_agent. intros ->. split; congruence. Qed.

Lemma fmap_app_nil {A} (o : option (list A)) : (fun l => l ++ []) <$> o = o.
Proof. destruct o as [l|]; [|done]. cbn. by rewrite app_nil_r. Qed.

Lemma analysis_step_spec (d0 : gmap string (list PyVal)) (m : Message) :
  d0 !! "Unknown" = None ->
  hashable_source m ->
  exists d,
    analysis_step d0 m = inr d
    /\ d !! "Unknown" = None
    /\ forall a,
         d !! a = (fun l => l ++ (if decide (from_agent a m) then [content_of m] else []))
                    <$> d0 !! a.
Proof.
  intros Hu Hh. unfold analysis_step, dict_get_default, hashable_source in *.
  fold (content_of m).
  destruct (m !! "source") as [[|z|s|l]|] eqn:Es;
    cbn [default from_option id]; try done.
  - exists d0. split_and!; [done|done|]. intros a.
    rewrite decide_False by (by rewrite (from_agent_source _ _ _ Es)).
    by rewrite fmap_app_nil.
  - exists d0. split_and!; [done|done|]. intros a.
    rewrite decide_False by (by rewrite (from_agent_source _ _ _ Es)).
    by rewrite fmap_app_nil.
  - destruct (d0 !! s) as [collected|] eqn:Ed.
    + eexists. split_and!; [reflexivity| |].
      * rewrite lookup_insert_ne; [done|]. intros ->. congruence.
      * intros a. destruct (decide (a = s)) as [->|Hne].
        -- rewrite lookup_insert_eq, Ed, decide_True; [done|].
           by apply (from_agent_source _ _ _ Es).
        -- rewrite lookup_insert_ne by done.
           rewrite decide_False; [by rewrite fmap_app_nil|].
           rewrite (from_agent_source _ _ _ Es). congruence.
    + exists d0. split_and!; [done|done|]. intros a.
      destruct (decide (a = s)) as [->|Hne]; [by rewrite Ed|].
      rewrite decide_False; [by rewrite fmap_app_nil|].
      rewrite (from_agent_source _ _ _ Es). congruence.
  - rewrite Hu. exists d0. split_and!; [done|done|]. intros a.
    rewrite decide_False; [by rewrite fmap_app_nil|].
    unfold from_agent. by rewrite Es.
Qed.

Lemma analysis_loop_spec (history : list Message) (d0 : gmap string (list PyVal)) :
  d0 !! "Unknown" = None ->
  Forall hashable_source history ->
  exists d,
    analysis_loop d0 history = inr d
    /\ forall a,
         d !! a = (fun l => l ++ (content_of <$> filter (from_agent a) history))
                    <$> d0 !! a.
Proof.
  intros Hu Hh. revert d0 Hu.
  induction Hh as [|m history Hm _ IH]; intros d0 Hu.
  - exists d0. split; [done|]. intros a. cbn. by rewrite fmap_app_nil.
  - destruct (analysis_step_spec d0 m Hu Hm) as (d1 & E1 & Hu1 & H1).
    destruct (IH d1 Hu1) as (d & E & H).
    exists d. cbn [analysis_loop]. rewrite E1. split; [done|].
    intros a. rewrite H, H1, filter_cons.
    destruct (d0 !! a) as [l|]; [|done]. cbn. f_equal.
    destruct (decide (from_agent a m)); [|by rewrite app_nil_r].
    by rewrite fmap_cons, <- (assoc_L (++)).
Qed.

Lemma analysis_loop_raises (history : list Message) (d0 : gmap string (list PyVal)) :
  ~ Forall hashable_source history ->
  exists msg, analysis_loop d0 history = inl (TypeError msg).
Proof.
  revert d0. induction history as [|m history IH]; intros d0 Hno.
  - by destruct Hno.
  - cbn [analysis_loop].
    destruct (decide (hashable_source m)) as [Hm|Hm].
    + assert (exists d1, analysis_step d0 m = inr d1) as [d1 ->].
      { unfold analysis_step, hashable_source in *.
        destruct (dict_get_default m "source" (PStr "Unknown")) as [|z|s|l] eqn:E;
          eauto.
        * destruct (d0 !! s); eauto.
        * unfold dict_get_default in E.
          destruct (m !! "source") as [[]|]; cbn in E; by simplify_eq. }
      apply IH. intros H. apply Hno. by constructor.
    + unfold analysis_step, hashable_source, dict_get_default in *.
      destruct (m !! "source") as [[|z|s|l]|]; try done. cbn. by eexists.
Qed.

(** X15: the conversation analysis of the Fibonacci example attributes to
    each of the three agents exactly the contents of the messages that the
    extractor takes to be that agent's, in transcript order, and collects
    nothing under any other name; it raises a [TypeError] exactly when
    some message has a list as its source. *)
Theorem conversation_analysis_by_agent (history : list Message) :
  (Forall hashable_source history ->
   exists d,
     group_by_agent history = inr d
     /\ (forall agent, agent ∈ extracted_agents ->
           d !! agent = Some (content_of <$> filter (from_agent agent) history))
     /\ (forall other, other ∉ extracted_agents -> d !! other = None))
  /\ (~ Forall hashable_source history ->
      exists msg, group_by_agent history = inl (TypeError msg)).
Proof.
  split; [|apply analysis_loop_raises].
  intros Hh. unfold group_by_agent.
  assert (({[ "CodeWriter" := []; "CodeReviewer" := []; "CodeOptimizer" := [] ]}
             : gmap string (list PyVal)) !! "Unknown" = None) as Hu
    by (vm_compute; reflexivity).
  destruct (analysis_loop_spec history _ Hu Hh) as (d & E & H).
  exists d. split_and!; [done| |].
  - intros agent Hin. rewrite H. unfold extracted_agents in Hin.
    repeat (apply elem_of_cons in Hin as [->|Hin]; [vm_compute; reflexivity|]).
    by apply elem_of_nil in Hin.
  - intros other Hout. rewrite H. unfold extracted_agents in Hout.
    rewrite !not_elem_of_cons in Hout. destruct Hout as (? & ? & ? & _).
    rewrite !lookup_insert_ne by done. by rewrite lookup_singleton_ne.
Qed.

Lemma conversation_analysis_by_agent_witness :
  exists d,
    group_by_agent sample_transcript = inr d
    /\ (forall agent, agent ∈ extracted_agents ->
          d !! agent
          = Some (content_of <$> filter (from_agent agent) sample_transcript))
    /\ (forall other, other ∉ extracted_agents -> d !! other = None).
Proof.
  apply (conversation_analysis_by_agent sample_transcript).
  apply (bool_decide_unpack _). vm_compute. exact I.
Defined.

Lemma split_lines_nonempty (s : string) : split_lines s <> [].
Proof.
  destruct s as [|c s]; [done|]. cbn [split_lines].
  destruct (decide (c = ascii_of_nat 10)); [done|].
  by destruct (split_lines s).
Qed.

Lemma join_cons_char (sep : string) (c : ascii) (x : string) (l : list string) :
  Str.join sep (String c x :: l) = String c (Str.join sep (x :: l)).
Proof. by destruct l. Qed.

(** Splitting at line feeds and joining with line feeds gives the text
    back. *)
Lemma join_split_lines (s : string) : Str.join Str.nl (split_lines s) = s.
Proof.
  induction s as [|c s IH]; [done|]. cbn [split_lines].
  destruct (decide (c = ascii_of_nat 10)) as [->|Hc].
  - pose proof (split_lines_nonempty s) as Hne.
    destruct (split_lines s) as [|line lines] eqn:E; [done|].
    change (Str.join Str.nl ("" :: line :: lines))
      with ("" +:+ Str.nl +:+ Str.join Str.nl (line :: lines)).
    by rewrite IH.
  - pose proof (split_lines_nonempty s) as Hne.
    destruct (split_lines s) as [|line lines] eqn:E; [done|].
    by rewrite join_cons_char, IH.
Qed.

(** X16: the code preview of the quick start prints the code unchanged
    when it has at most 15 lines, and nothing after it; for longer code it
    prints the first 15 lines, which the rest of the code continues after
    a line feed, followed by the number of lines left out. *)
Theorem code_preview_lines (final_code : string) :
  Str.join Str.nl (split_lines final_code) = final_code
  /\ ((length (split_lines final_code) <= 15)%nat ->
      code_preview final_code
      = [ Text (Str.nl +:+ "📝 CODE PREVIEW (first 15 lines):");
          Text (String.concat "" (repeat "-" 40));
          Text final_code ])
  /\ ((15 < length (split_lines final_code))%nat ->
      code_preview final_code
      = [ Text (Str.nl +:+ "📝 CODE PREVIEW (first 15 lines):");
          Text (String.concat "" (repeat "-" 40));
          Text (Str.join Str.nl (take 15 (split_lines final_code)));
          Text ("... and " +:+ show_nat (length (split_lines final_code) - 15)
                +:+ " more lines") ]
      /\ final_code
         = Str.join Str.nl (take 15 (split_lines final_code))
           +:+ Str.nl +:+ Str.join Str.nl (drop 15 (split_lines final_code))).
Proof.
  split; [apply join_split_lines|]. unfold code_preview. cbv zeta. split.
  - intros Hle. rewrite take_ge by done. rewrite join_split_lines.
    by rewrite (proj2 (Nat.ltb_ge _ _) Hle).
  - intros Hlt. rewrite (proj2 (Nat.ltb_lt _ _) Hlt). split; [done|].
    rewrite <- join_app.
    + by rewrite take_drop, join_split_lines.
    + intros E. apply (f_equal length) in E. rewrite length_take in E.
      change (length (@nil string)) with 0%nat in E. lia.
    + intros E. apply (f_equal length) in E. rewrite length_drop in E.
      change (length (@nil string)) with 0%nat in E. lia.
Qed.

Lemma code_preview_lines_witness :
  code_preview ("def f():" +:+ Str.nl +:+ "    return 1")
  = [ Text (Str.nl +:+ "📝 CODE PREVIEW (first 15 lines):");
      Text (String.concat "" (repeat "-" 40));
      Text ("def f():" +:+ Str.nl +:+ "    return 1") ].
Proof.
  destruct (code_preview_lines ("def f():" +:+ Str.nl +:+ "    return 1"))
    as (_ & Hshort & _).
  apply Hshort. apply (bool_decide_unpack _). vm_compute. exact I.
Defined.





Lemma extraction_raises_iff_non_text_witness :
  (exists e, extractCode untyped_transcript "CodeWriter" = inl e)
  /\ (exists e, extractReview untyped_transcript "CodeWriter" = inl e).
Proof.
  destruct (extraction_raises_iff_non_text untyped_transcript "CodeWriter")
    as ([_ Hcode] & [_ Hreview] & _).
  split.
  - apply Hcode. apply (bool_decide_unpack _). vm_compute. exact I.
  - apply Hreview. apply (bool_decide_unpack _). vm_compute. exact I.
Defined.

Lemma run_silent_witness :
  exists answer,
    canned_team sample_answer (team_of sample_workflow) "Write add"
      (termination_condition sample_workflow) keyed_world
    = Some (answer, keyed_world).
Proof.
  destruct (run_silent (canned_team sample_answer) (canned_team bare_answer)
              (failing_team api_key_error) late_clock
              sample_workflow "Write add" keyed_world)
    as (_ & Hworld & _).
  apply (Hworld (inr (match run (canned_team sample_answer) (canned_team bare_answer)
                              late_clock sample_workflow "Write add" false
                              keyed_world with
                      | Some (inr result, _) => result
                      | _ => sample_result
                      end))).
  vm_compute. reflexivity.
Defined.
